(** * tmuxer: project discovery and tmux session orchestration

    A shallow embedding of the two variants of the program kept in the
    repository (main.go and part_000, the variant that sorts its
    result), and the properties of the specification
    checked against them.

    Go strings are byte strings: [string] with [ascii] bytes.  The
    map [ret] of [findProjectDirectories] is a [gmap string Project].
    What the program asks of its surroundings (environment variables,
    the file-system walk, the configuration file, the fuzzy finder, the
    [tmux] processes, the iteration order of a Go map) is the record
    [OS]; every command the program starts is logged in a trace. *)

From Stdlib Require Import String Ascii List Permutation Sorted Bool Arith Lia.
From stdpp Require Import base gmap strings list fin_maps sorting.

Local Open Scope string_scope.
Local Open Scope list_scope.

(** ** Models of the Go library functions the program calls *)

Module strings.

(** [strings.HasPrefix(s, prefix)] *)
Definition HasPrefix (s pre : string) : bool := String.prefix pre s.

(** [strings.Contains(s, substr)]: [substr] starts at some position of [s]. *)
Fixpoint Contains (s sub : string) : bool :=
  if String.prefix sub s then true
  else match s with
       | EmptyString => false
       | String _ s' => Contains s' sub
       end.

(** [strings.Split(s, sep)] for a separator of one byte: the fields
    between the separators, empty ones included; never the empty list. *)
Fixpoint Split (s : string) (sep : ascii) : list string :=
  match s with
  | EmptyString => [EmptyString]
  | String c s' =>
      if Ascii.eqb c sep then EmptyString :: Split s' sep
      else match Split s' sep with
           | [] => [String c EmptyString]
           | f :: fs => String c f :: fs
           end
  end.

(** [strings.Join(elems, sep)] *)
Definition Join (elems : list string) (sep : string) : string :=
  String.concat sep elems.

Definition lower_byte (c : ascii) : ascii :=
  let n := nat_of_ascii c in
  if (65 <=? n)%nat && (n <=? 90)%nat then ascii_of_nat (n + 32) else c.

(** [strings.ToLower] on the ASCII letters; bytes from 128 on (which Go
    decodes as UTF-8 and maps by the Unicode tables) are left as they are. *)
Fixpoint ToLower (s : string) : string :=
  match s with
  | EmptyString => EmptyString
  | String c s' => String (lower_byte c) (ToLower s')
  end.

(** The slice [s[n:]]. *)
Fixpoint from (n : nat) (s : string) : string :=
  match n, s with
  | O, _ => s
  | S n', String _ s' => from n' s'
  | S _, EmptyString => EmptyString
  end.

(** The slice [s[:n]]. *)
Definition upto (n : nat) (s : string) : string := String.substring 0 n s.

(** Go's [a > b] on strings: the byte-wise lexicographic order. *)
Definition gt (a b : string) : bool :=
  match String.compare a b with Gt => true | _ => false end.

End strings.

Module path.

Definition slash : ascii := "/"%char.

(** The elements of a path that [Clean] keeps apart from [".."]
    handling: the fields between slashes, without the empty ones and
    the ["."] ones. *)
Definition elements (p : string) : list string :=
  List.filter (fun e => negb (String.eqb e "" || String.eqb e "."))
              (strings.Split p slash).

(** One pass of [Clean] over the elements; [out] is the output so far,
    last element first.  A [".."] removes the element before it; at
    the start of a rooted path it is dropped, at the start of a
    relative one (or after another [".."]) it is kept. *)
Fixpoint clean_elements (rooted : bool) (es out : list string) : list string :=
  match es with
  | [] => List.rev out
  | e :: es' =>
      if String.eqb e ".." then
        match out with
        | top :: out' =>
            if String.eqb top ".." then clean_elements rooted es' (e :: out)
            else clean_elements rooted es' out'
        | [] =>
            if rooted then clean_elements rooted es' []
            else clean_elements rooted es' [e]
        end
      else clean_elements rooted es' (e :: out)
  end.

(** [path.Clean]: the shortest path name equivalent to [p] by purely
    lexical processing; ["."] for the empty result. *)
Definition Clean (p : string) : string :=
  if String.eqb p "" then "."
  else
    let rooted := strings.HasPrefix p "/" in
    let out := String.concat "/" (clean_elements rooted (elements p) []) in
    if rooted then "/" +:+ out
    else if String.eqb out "" then "." else out.

(** [path.Split]: the path up to and with its last slash, and the rest. *)
Fixpoint Split (p : string) : string * string :=
  match p with
  | EmptyString => (EmptyString, EmptyString)
  | String c p' =>
      let '(d, f) := Split p' in
      if String.eqb d "" then
        if Ascii.eqb c slash then ("/", f) else ("", String c f)
      else (String c d, f)
  end.

(** [path.Dir]: all but the last element of the path, cleaned. *)
Definition Dir (p : string) : string := Clean (fst (Split p)).

Fixpoint strip_trailing_slashes (p : string) : string :=
  match p with
  | EmptyString => EmptyString
  | String c p' =>
      match strip_trailing_slashes p' with
      | EmptyString => if Ascii.eqb c slash then "" else String c ""
      | r => String c r
      end
  end.

(** [path.Base]: the last element of the path; ["."] for the empty
    path and ["/"] for a path of slashes only. *)
Definition Base (p : string) : string :=
  if String.eqb p "" then "."
  else
    let f := snd (Split (strip_trailing_slashes p)) in
    if String.eqb f "" then "/" else f.

(** The buffer [path.Join] fills: an element is skipped only while the
    buffer is still empty and the element is empty too. *)
Fixpoint join_buf (buf : string) (elems : list string) : string :=
  match elems with
  | [] => buf
  | e :: es =>
      if String.eqb buf "" then join_buf e es
      else join_buf (buf +:+ "/" +:+ e) es
  end.

(** [path.Join]: the elements joined by slashes and cleaned; the empty
    string when all of them are empty. *)
Definition Join (elems : list string) : string :=
  let buf := join_buf "" elems in
  if String.eqb buf "" then "" else Clean buf.

End path.

(** Errors are Go [error] values; only their message is kept. *)
Definition error : Type := string.

Inductive result (A : Type) : Type :=
| Ok (a : A)
| Err (e : error).
Arguments Ok {A} a.
Arguments Err {A} e.

Definition is_Err {A} (r : result A) : bool :=
  match r with Ok _ => false | Err _ => true end.

Module filepath.

(** On Unix [filepath.Clean], [filepath.Join] and [filepath.IsAbs] are
    the functions of package [path]. *)
Definition Clean := path.Clean.
Definition Join := path.Join.
Definition IsAbs (p : string) : bool := strings.HasPrefix p "/".

(** [filepath.Abs]: an absolute path is cleaned, any other is joined
    to the working directory [wd] (the result of [os.Getwd]). *)
Definition Abs (wd : result string) (p : string) : result string :=
  if IsAbs p then Ok (Clean p)
  else match wd with
       | Ok d => Ok (Join [d; p])
       | Err e => Err e
       end.

(** The elements [Rel] walks through: the fields between the slashes
    of a cleaned path (the first one is empty when the path is
    rooted); none for the empty path, one for ["/"]. *)
Definition rel_elements (p : string) : list string :=
  if String.eqb p "" then []
  else if String.eqb p "/" then [""]
  else strings.Split p path.slash.

Fixpoint drop_common (bs ts : list string) : list string * list string :=
  match bs, ts with
  | b :: bs', t :: ts' =>
      if String.eqb b t then drop_common bs' ts' else (bs, ts)
  | _, _ => (bs, ts)
  end.

(** [filepath.Rel(basepath, targpath)]: the path that leads from
    [basepath] to [targpath]; an error when one is rooted and the
    other is not, or when what is left of [basepath] after the common
    elements is [".."]. *)
Definition Rel (basepath targpath : string) : result string :=
  let base := Clean basepath in
  let targ := Clean targpath in
  if String.eqb targ base then Ok "."
  else
    let base := if String.eqb base "." then "" else base in
    if negb (Bool.eqb (strings.HasPrefix base "/") (strings.HasPrefix targ "/"))
    then Err ("Rel: can't make " +:+ targpath +:+ " relative to " +:+ basepath)
    else
      let '(bs, ts) := drop_common (rel_elements base) (rel_elements targ) in
      if String.eqb (String.concat "/" bs) ".."
      then Err ("Rel: can't make " +:+ targpath +:+ " relative to " +:+ basepath)
      else
        match bs with
        | [] => Ok (String.concat "/" ts)
        | _ :: _ => Ok (String.concat "/" (List.map (fun _ => "..") bs ++ ts))
        end.

End filepath.

Module doublestar.

Definition is_meta (c : ascii) : bool :=
  Ascii.eqb c "*" || Ascii.eqb c "?" || Ascii.eqb c "[" || Ascii.eqb c "{".

(** The index of the last slash of [p] that comes before its first
    unescaped meta character ([*], [?], [[], [{]); a backslash
    escapes the byte after it.  [i] is the index of the first byte
    of [p] and [idx] the last slash seen so far. *)
Fixpoint split_index (p : string) (i : nat) (idx : option nat) : option nat :=
  match p with
  | EmptyString => idx
  | String c p' =>
      if Ascii.eqb c "\" then
        match p' with
        | EmptyString => idx
        | String _ p'' => split_index p'' (S (S i)) idx
        end
      else if Ascii.eqb c "/" then split_index p' (S i) (Some i)
      else if is_meta c then idx
      else split_index p' (S i) idx
  end.

(** [doublestar.SplitPattern]: the base directory without meta
    characters and the pattern to match below it; [(".", p)] when
    there is no slash to split at. *)
Definition SplitPattern (p : string) : string * string :=
  match split_index p 0 None with
  | None => (".", p)
  | Some O => ("/", strings.from 1 p)
  | Some (S j) => (strings.upto (S j) p, strings.from (S (S j)) p)
  end.

End doublestar.

Module regexp.

Definition newline : ascii := "010"%char.

(** Is there a [close] further on, with no [stop] byte before it? *)
Fixpoint closes (close : ascii) (stop : ascii -> bool) (s : string) : bool :=
  match s with
  | EmptyString => false
  | String c s' =>
      if Ascii.eqb c close then true
      else if stop c then false
      else closes close stop s'
  end.

(** Does the expression [(\*|\*\*|\?|\[.*\]|\{[^}]*\})] match somewhere
    in [s] ([FindStringIndex] returns a pair of indexes): a star, a
    question mark, a bracket pair on one line, or a brace pair. *)
Fixpoint glob_meta_found (s : string) : bool :=
  match s with
  | EmptyString => false
  | String c s' =>
      if Ascii.eqb c "*" || Ascii.eqb c "?" then true
      else if Ascii.eqb c "[" && closes "]" (fun d => Ascii.eqb d newline) s' then true
      else if Ascii.eqb c "{" && closes "}" (fun _ => false) s' then true
      else glob_meta_found s'
  end.

End regexp.

Module sort.

Section Slice.
Context {A : Type} (less : A -> A -> bool).

(** One step of the insertion sort: [x] moves to the left past every
    element it is less than.  [sorted] is the part already in order,
    last element first. *)
Fixpoint insert_left (x : A) (sorted : list A) : list A :=
  match sorted with
  | [] => [x]
  | y :: sorted' =>
      if less x y then y :: insert_left x sorted' else x :: sorted
  end.

(** [sort.Slice(s, less)] as the insertion sort that the library runs on
    slices of at most twelve elements; on longer slices the library's
    result is a permutation in the same order up to the places of
    elements neither of which is less than the other. *)
Definition Slice (s : list A) : list A :=
  List.rev (List.fold_left (fun sorted x => insert_left x sorted) s []).

(** [ge a b]: [sort.Slice] may leave [a] somewhere before [b]. *)
Definition ge (a b : A) : Prop := less b a = false.

End Slice.

End sort.

(** ** The program's data *)

Record Project : Type := mkProject {
  Name : string;
  FullPath : string;
  HomePath : string
}.

Record Config : Type := mkConfig {
  ProjectBase : list string
}.

(** The two variants of the program.  They have the same [main],
    [loadConfig], [mergeFlagsWithConfig], [selectProjectDirectory] and
    [normalizePath], and differ in the walk callback and the final
    sort of [findProjectDirectories], and in how
    [startOrAttachToTmux] and [runTmuxCommand] treat their commands. *)
Inductive Variant : Type :=
| MainGo    (* main.go *)
| Part000.  (* part_000, the variant that sorts *)

(** What the program does to the outside, in order. *)
Inductive Event : Type :=
| Exec (argv : list string)       (* a process started and waited for *)
| Walk (base pattern : string)    (* doublestar.GlobWalk(os.DirFS(base), pattern, ...) *)
| Print (s : string).             (* text written to the standard output *)

(** What the outside answers. *)
Record OS : Type := mkOS {
  (** [os.Getenv] *)
  Getenv : string -> string;
  (** [os.Getwd] *)
  Getwd : result string;
  (** the values of the flags [--base] and [--config] after [pflag.Parse] *)
  flag_base : list string;
  flag_config : string;
  (** [os.Open] of the configuration file and the YAML decoder on it *)
  read_config : string -> result Config;
  (** the paths [doublestar.GlobWalk] visits below a base directory for
      a pattern, in the order of the walk and relative to the base, and
      the error the walk itself ends with, if any *)
  glob_walk : string -> string -> list string * option error;
  (** the order in which a [range] over a Go map yields its entries *)
  map_range : list (string * Project) -> list (string * Project);
  (** [fuzzyfinder.Find]: the index chosen, or an error when aborted *)
  fuzzy_find : list Project -> result nat;
  (** a process run after the events so far: its combined output and
      the error of [cmd.Run] or [cmd.CombinedOutput] *)
  run_command : list Event -> list string -> string * option error
}.

(** A [range] over a map yields each entry once, in an order of its own. *)
Definition range_is_permutation (os : OS) : Prop :=
  forall l : list (string * Project), Permutation (map_range os l) l.

(** [os.UserHomeDir] on Unix. *)
Definition UserHomeDir (os : OS) : string * option error :=
  let v := Getenv os "HOME" in
  if String.eqb v "" then ("", Some "$HOME is not defined") else (v, None).

(** ** The program *)

Definition normalizePath (os : OS) (path : string) : result string :=
  let path :=
    if strings.HasPrefix path "~" then
      let homeDir := fst (UserHomeDir os) in
      filepath.Join [homeDir; strings.from 1 path]
    else path in
  let path :=
    if strings.HasPrefix path "$HOME" then
      let homeDir := fst (UserHomeDir os) in
      filepath.Join [homeDir; strings.from 5 path]
    else path in
  filepath.Abs (Getwd os) path.

(** The loop of the method [NormalizePaths] over the entries. *)
Fixpoint normalize_all (os : OS) (bases : list string) : result (list string) :=
  match bases with
  | [] => Ok []
  | b :: bases' =>
      match normalizePath os b with
      | Err e => Err e
      | Ok p =>
          match normalize_all os bases' with
          | Err e => Err e
          | Ok ps => Ok (p :: ps)
          end
      end
  end.

Definition NormalizePaths (os : OS) (cfg : Config) : result Config :=
  match normalize_all os (ProjectBase cfg) with
  | Err e => Err e
  | Ok ps => Ok (mkConfig ps)
  end.

Definition loadConfig (os : OS) (configPath : string) : result Config :=
  if String.eqb configPath "" || String.eqb configPath "-" then Ok (mkConfig [])
  else read_config os configPath.

Definition mergeFlagsWithConfig (os : OS) (config : Config) : result Config :=
  if (0 <? length (flag_base os))%nat
  then Ok (mkConfig (ProjectBase config ++ flag_base os))
  else Ok config.

(** What the function passed to [doublestar.GlobWalk] makes of a match
    [p]: an error to return, nothing, or the project to store. *)
Definition match_project (v : Variant) (base : string) (patternUsed : bool)
    (homedir : string) (p : string) : result (option Project) :=
  match v with
  | MainGo =>
      if patternUsed then
        let fullpath := path.Join [base; path.Dir p] in
        match filepath.Rel homedir fullpath with
        | Err e => Err e
        | Ok rel => Ok (Some (mkProject (path.Dir p) fullpath rel))
        end
      else Ok None
  | Part000 =>
      let name :=
        if patternUsed then
          if negb (strings.Contains p "/") then path.Base base else path.Dir p
        else p in
      let fullpath := path.Join [base; name] in
      match filepath.Rel homedir fullpath with
      | Err e => Err e
      | Ok rel => Ok (Some (mkProject name fullpath rel))
      end
  end.

(** The function passed to [doublestar.GlobWalk]: called on a match [p],
    it updates the map [ret] it has captured and returns an error or nil. *)
Definition walk_callback (v : Variant) (base : string) (patternUsed : bool)
    (homedir : string) (p : string) (ret : gmap string Project)
  : gmap string Project * option error :=
  match match_project v base patternUsed homedir p with
  | Err e => (ret, Some e)
  | Ok None => (ret, None)
  | Ok (Some project) => (<[FullPath project := project]> ret, None)
  end.

(** [doublestar.GlobWalk] calls the function on each match in turn and
    stops at the first error the function returns; after the last match
    it returns the error of the walk itself. *)
Fixpoint GlobWalk_visit (fn : string -> gmap string Project -> gmap string Project * option error)
    (matches : list string) (walk_err : option error) (ret : gmap string Project)
  : gmap string Project * option error :=
  match matches with
  | [] => (ret, walk_err)
  | p :: matches' =>
      match fn p ret with
      | (ret', Some e) => (ret', Some e)
      | (ret', None) => GlobWalk_visit fn matches' walk_err ret'
      end
  end.

Definition GlobWalk (os : OS) (base pattern : string)
    (fn : string -> gmap string Project -> gmap string Project * option error)
    (ret : gmap string Project) : gmap string Project * option error :=
  let '(matches, walk_err) := glob_walk os base pattern in
  GlobWalk_visit fn matches walk_err ret.

(** The body of the loop over [cfg.ProjectBase]; what [GlobWalk]
    returns is dropped. *)
Definition resolve_base (v : Variant) (os : OS) (basePattern : string)
    (ret : gmap string Project) : gmap string Project :=
  let '(base, pattern) := doublestar.SplitPattern basePattern in
  let patternUsed := regexp.glob_meta_found (path.Base pattern) in
  let homedir := fst (UserHomeDir os) in
  fst (GlobWalk os base pattern (walk_callback v base patternUsed homedir) ret).

Fixpoint resolve_bases (v : Variant) (os : OS) (bases : list string)
    (ret : gmap string Project) (t : list Event) : gmap string Project * list Event :=
  match bases with
  | [] => (ret, t)
  | basePattern :: bases' =>
      let '(base, pattern) := doublestar.SplitPattern basePattern in
      resolve_bases v os bases' (resolve_base v os basePattern ret)
                    (t ++ [Walk base pattern])
  end.

(** The comparison given to [sort.Slice] (what it prints is left out). *)
Definition name_less (a b : Project) : bool :=
  strings.gt (strings.ToLower (Name a)) (strings.ToLower (Name b)).

Definition findProjectDirectories (v : Variant) (os : OS) (cfg : Config)
    (t : list Event) : list Event * (list Project * option error) :=
  let '(ret, t') := resolve_bases v os (ProjectBase cfg) ∅ t in
  let res := List.map snd (map_range os (map_to_list ret)) in
  let res :=
    match v with
    | MainGo => res
    | Part000 => sort.Slice name_less res
    end in
  (t', (res, None)).

(** [None] is the panic of an index out of range. *)
Definition selectProjectDirectory (os : OS) (projects : list Project)
    (t : list Event) : option (list Event * result Project) :=
  match fuzzy_find os projects with
  | Err e => Some (t, Err e)
  | Ok idx =>
      match nth_error projects idx with
      | None => None
      | Some p =>
          Some (t ++ [Print ("Starting selected project: " +:+ Name p +:+ String regexp.newline "")],
                Ok p)
      end
  end.

(** Running a process: the event is logged and the outside answers. *)
Definition run (os : OS) (argv : list string) (t : list Event)
  : list Event * (string * option error) :=
  (t ++ [Exec argv], run_command os t argv).

Definition runTmuxCommand (v : Variant) (os : OS) (cmdName : string)
    (args : list string) (t : list Event) : list Event * option error :=
  let argv :=
    match v with
    | MainGo => ["sh"; "-c"; strings.Join (["tmux"; cmdName] ++ args) " "]
    | Part000 => "tmux" :: [cmdName] ++ args
    end in
  let '(t', (_, err)) := run os argv t in
  (t', err).

Definition resetTerminal (os : OS) (t : list Event) : list Event :=
  fst (run os ["reset"] t).

Definition show_bool (b : bool) : string := if b then "true" else "false".

(** The function calls itself after a successful [new-session]; [fuel]
    bounds the depth of these calls, and [None] says it was not enough. *)
Fixpoint startOrAttachToTmux (fuel : nat) (v : Variant) (os : OS)
    (project : Project) (t : list Event) : option (list Event * option error) :=
  match fuel with
  | O => None
  | S fuel' =>
      let inTmux := negb (String.eqb (Getenv os "TMUX") "") in
      let '(t, (output, err)) := run os ["tmux"; "list-sessions"] t in
      let no_server := strings.Contains output "no server running" in
      let t := t ++ [Print (show_bool no_server +:+ String regexp.newline "")] in
      let failed :=
        match err with
        | Some e => if negb no_server then Some e else None
        | None => None
        end in
      match failed with
      | Some e => Some (t, Some ("failed to list sessions: " +:+ e))
      | None =>
          let sessionExists :=
            existsb (fun line => strings.Contains line (Name project))
                    (strings.Split output regexp.newline) in
          let t := match v with MainGo => resetTerminal os t | Part000 => t end in
          if sessionExists && inTmux then
            match v with
            | MainGo => Some (t ++ [Print ("tmux switch-client -t " +:+ Name project)], None)
            | Part000 => Some (runTmuxCommand v os "switch-client" ["-t"; Name project] t)
            end
          else if sessionExists then
            match v with
            | MainGo => Some (t ++ [Print ("tmux attach-session -t " +:+ Name project)], None)
            | Part000 => Some (runTmuxCommand v os "attach-session" ["-t"; Name project] t)
            end
          else
            let '(t, err) :=
              runTmuxCommand v os "new-session"
                ["-d"; "-s"; Name project; "-c"; FullPath project] t in
            match err with
            | Some e => Some (t, Some e)
            | None => startOrAttachToTmux fuel' v os project t
            end
      end
  end.

Definition println_error (e : error) : Event :=
  Print ("Error:  " +:+ e +:+ String regexp.newline "").

(** [main]: the events of the run and the exit status of the process
    (1 from [os.Exit(1)], 2 for a panic, 0 when [main] returns). *)
Definition main (fuel : nat) (v : Variant) (os : OS) : option (list Event * nat) :=
  match normalizePath os (flag_config os) with
  | Err e => Some ([println_error e], 1%nat)
  | Ok cfgPath =>
  match loadConfig os cfgPath with
  | Err e => Some ([println_error e], 1%nat)
  | Ok config =>
  match mergeFlagsWithConfig os config with
  | Err e => Some ([println_error e], 1%nat)
  | Ok config =>
  if (length (ProjectBase config) =? 0)%nat then
    Some ([Print ("Error: No project base path provided" +:+ String regexp.newline "")], 1%nat)
  else
  match NormalizePaths os config with
  | Err e => Some ([Print ("Error: Failed to normalize config path: " +:+ e)], 1%nat)
  | Ok config =>
  let '(t, (projects, err)) := findProjectDirectories v os config [] in
  match err with
  | Some e => Some (t ++ [Print ("Error: Failed to normalize config path: " +:+ e)], 1%nat)
  | None =>
  match selectProjectDirectory os projects t with
  | None => Some (t, 2%nat)
  | Some (t, Err e) =>
      Some (t ++ [Print ("Error: " +:+ e +:+ String regexp.newline "")], 1%nat)
  | Some (t, Ok projectDir) =>
  match startOrAttachToTmux fuel v os projectDir t with
  | None => None
  | Some (t, Some e) =>
      Some (t ++ [Print ("Error: " +:+ e +:+ String regexp.newline "")], 1%nat)
  | Some (t, None) => Some (t, 0%nat)
  end end end end end end end.

(** ** What a run stores, match by match

    The projects the walk callback stores for the matches of one walk,
    in order: the walk ends at the first match for which the callback
    returns an error. *)
Fixpoint walk_projects (v : Variant) (base : string) (patternUsed : bool)
    (homedir : string) (matches : list string) : list Project :=
  match matches with
  | [] => []
  | p :: matches' =>
      match match_project v base patternUsed homedir p with
      | Err _ => []
      | Ok None => walk_projects v base patternUsed homedir matches'
      | Ok (Some project) =>
          project :: walk_projects v base patternUsed homedir matches'
      end
  end.

Definition base_projects (v : Variant) (os : OS) (basePattern : string) : list Project :=
  let '(base, pattern) := doublestar.SplitPattern basePattern in
  walk_projects v base (regexp.glob_meta_found (path.Base pattern))
                (fst (UserHomeDir os)) (fst (glob_walk os base pattern)).

(** Every project stored during [findProjectDirectories], in order and
    with repetitions. *)
Definition discovered (v : Variant) (os : OS) (cfg : Config) : list Project :=
  List.flat_map (base_projects v os) (ProjectBase cfg).

Definition store (ret : gmap string Project) (project : Project) : gmap string Project :=
  <[FullPath project := project]> ret.

(** Every entry of the map sits under its own full path. *)
Definition keyed (ret : gmap string Project) : Prop :=
  forall k project, ret !! k = Some project -> FullPath project = k.

(** The outside with the errors of the walks taken away. *)
Definition without_walk_errors (os : OS) : OS :=
  mkOS (Getenv os) (Getwd os) (flag_base os) (flag_config os) (read_config os)
       (fun base pattern => (fst (glob_walk os base pattern), None))
       (map_range os) (fuzzy_find os) (run_command os).

(** ** Reading a trace *)

(** The [tmux] arguments of a command: [runTmuxCommand] of main.go hands
    them to [sh -c] as one line. *)
Definition tmux_args (argv : list string) : list string :=
  match argv with
  | ["sh"; "-c"; line] => List.tl (strings.Split line " ")
  | "tmux" :: args => args
  | _ => []
  end.

Definition is_tmux (sub : string) (e : Event) : bool :=
  match e with
  | Exec ("tmux" :: cmd :: _) => String.eqb cmd sub
  | Exec ["sh"; "-c"; line] =>
      String.eqb line ("tmux " +:+ sub) ||
      strings.HasPrefix line ("tmux " +:+ sub +:+ " ")
  | _ => false
  end.

(** How many times a [tmux] subcommand was started. *)
Definition issued (sub : string) (t : list Event) : nat :=
  length (List.filter (is_tmux sub) t).

Definition is_walk (e : Event) : bool :=
  match e with Walk _ _ => true | _ => false end.

(** ** Sample surroundings *)

(** A file system with the home directory [/home/u], which is a
    repository itself and holds two more under [code], and one more
    repository under [/srv]; the pattern with an open bracket is
    malformed, and its walk ends with the error of the library. *)
Definition sample_walk (base pattern : string) : list string * option error :=
  if String.eqb base "/home/u/code" && String.eqb pattern "**/{.git}" then
    (["project-a/.git"; "group/project-b/.git"], None)
  else if String.eqb base "/home/u" && String.eqb pattern "**/{.git}" then
    ([".git"; "code/project-a/.git"; "code/group/project-b/.git"], None)
  else if String.eqb base "/home/u" && String.eqb pattern "code" then
    (["code"], None)
  else if String.eqb base "/srv" && String.eqb pattern "**/{.git}" then
    (["app/.git"], None)
  else if String.eqb base "/srv" && String.eqb pattern "**/[" then
    ([], Some "syntax error in pattern")
  else ([], None).

(** A [tmux] server: [new-session] adds a session, under its name with
    dots and colons turned to underscores, and fails when there is one
    of that name; [list-sessions] prints a line per session and fails
    when there is none. *)
Fixpoint session_name (s : string) : string :=
  match s with
  | EmptyString => EmptyString
  | String c s' =>
      String (if Ascii.eqb c "." || Ascii.eqb c ":" then "_"%char else c)
             (session_name s')
  end.

Fixpoint sessions_after (sessions : list string) (t : list Event) : list string :=
  match t with
  | [] => sessions
  | Exec argv :: t' =>
      match tmux_args argv with
      | ["new-session"; "-d"; "-s"; name; "-c"; _] =>
          if existsb (String.eqb (session_name name)) sessions
          then sessions_after sessions t'
          else sessions_after (sessions ++ [session_name name]) t'
      | _ => sessions_after sessions t'
      end
  | _ :: t' => sessions_after sessions t'
  end.

Definition sample_tmux (sessions : list string) (t : list Event)
    (argv : list string) : string * option error :=
  let now := sessions_after sessions t in
  match tmux_args argv with
  | ["list-sessions"] =>
      match now with
      | [] => ("no server running on /tmp/tmux-1000/default", Some "exit status 1")
      | _ => (String.concat (String regexp.newline "")
                (List.map (fun s => s +:+ ": 1 windows") now), None)
      end
  | ["new-session"; "-d"; "-s"; name; "-c"; _] =>
      if existsb (String.eqb (session_name name)) now
      then ("duplicate session: " +:+ session_name name, Some "exit status 1")
      else ("", None)
  | _ => ("", None)
  end.

(** A [tmux] that cannot start a server. *)
Definition broken_tmux (t : list Event) (argv : list string) : string * option error :=
  match tmux_args argv with
  | ["list-sessions"] => ("no server running on /tmp/tmux-1000/default", Some "exit status 1")
  | _ => ("", Some "exit status 1")
  end.

Definition sample_env (home tmux : string) (name : string) : string :=
  if String.eqb name "HOME" then home
  else if String.eqb name "TMUX" then tmux
  else "".

Definition sample_os (home : string) (bases : list string)
    (run_command : list Event -> list string -> string * option error) : OS :=
  mkOS (sample_env home "") (Ok "/home/u") bases "-"
       (fun _ => Ok (mkConfig []))
       sample_walk (fun l => l) (fun _ => Ok 0%nat) run_command.

(** The sample file system seen with [HOME] set to [/home/u], and with
    [HOME] not set; no [tmux] session yet. *)
Definition home_os : OS := sample_os "/home/u" [] (sample_tmux []).
Definition no_home_os : OS := sample_os "" [] (sample_tmux []).

(** The sample surroundings with a session [proj] there already. *)
Definition proj_os : OS := sample_os "/home/u" [] (sample_tmux ["proj"]).
Definition broken_os : OS := sample_os "/home/u" [] broken_tmux.
Definition proj : Project := mkProject "proj" "/home/u/proj" "proj".

(** ** The steps of [startOrAttachToTmux], for the statements *)

Definition list_sessions : list string := ["tmux"; "list-sessions"].

(** The path of [normalizePath] before it is made absolute. *)
Definition home_expanded (os : OS) (path : string) : string :=
  let path :=
    if strings.HasPrefix path "~"
    then filepath.Join [fst (UserHomeDir os); strings.from 1 path] else path in
  if strings.HasPrefix path "$HOME"
  then filepath.Join [fst (UserHomeDir os); strings.from 5 path] else path.

(** The listing can be used: the command gave no error, or its output
    says that no server is running. *)
Definition listing_usable (r : string * option error) : bool :=
  match snd r with
  | Some _ => strings.Contains (fst r) "no server running"
  | None => true
  end.

(** Some line of the listing contains the name of the project. *)
Definition session_listed (project : Project) (output : string) : bool :=
  existsb (fun line => strings.Contains line (Name project))
          (strings.Split output regexp.newline).

(** The events of one check: the listing, what is printed about it,
    and in main.go the reset of the terminal. *)
Definition check_events (v : Variant) (os : OS) (t : list Event) : list Event :=
  let output := fst (run_command os t list_sessions) in
  [Exec list_sessions;
   Print (show_bool (strings.Contains output "no server running")
          +:+ String regexp.newline "")] ++
  match v with MainGo => [Exec ["reset"]] | Part000 => [] end.

Definition new_session_argv (v : Variant) (project : Project) : list string :=
  match v with
  | MainGo =>
      ["sh"; "-c";
       strings.Join ["tmux"; "new-session"; "-d"; "-s"; Name project;
                     "-c"; FullPath project] " "]
  | Part000 =>
      ["tmux"; "new-session"; "-d"; "-s"; Name project; "-c"; FullPath project]
  end.

(** What the function does once it has found the session in the
    listing: main.go prints the command, the other variant runs it. *)
Definition join_events (v : Variant) (os : OS) (project : Project)
    (t : list Event) : list Event * option error :=
  let sub :=
    if negb (String.eqb (Getenv os "TMUX") "") then "switch-client"
    else "attach-session" in
  match v with
  | MainGo => ([Print ("tmux " +:+ sub +:+ " -t " +:+ Name project)], None)
  | Part000 =>
      ([Exec ["tmux"; sub; "-t"; Name project]],
       snd (run_command os t ["tmux"; sub; "-t"; Name project]))
  end.

(** The sample surroundings with a base pattern given by a flag. *)
Definition one_base_os : OS :=
  sample_os "/home/u" ["~/code/**/{.git}"] (sample_tmux []).

(** Four base patterns on the sample file system: two whose matches
    overlap, one without glob metacharacters, one whose walk fails. *)
Definition sample_config : Config :=
  mkConfig ["/home/u/code/**/{.git}"; "/home/u/**/{.git}"; "/home/u/code";
            "/srv/**/["].

(** ** More readers and sample surroundings *)

(** The event of the walk for a base pattern. *)
Definition walk_event (basePattern : string) : Event :=
  Walk (fst (doublestar.SplitPattern basePattern))
       (snd (doublestar.SplitPattern basePattern)).

(** The events [startOrAttachToTmux] can add for a project: the text it
    prints, and the commands it runs. *)
Definition orchestrator_event (v : Variant) (project : Project) (e : Event) : bool :=
  match e with
  | Print _ => true
  | Walk _ _ => false
  | Exec argv =>
      let same argv' := bool_decide (argv = argv') in
      same list_sessions || same (new_session_argv v project) ||
      match v with
      | MainGo => same ["reset"]
      | Part000 =>
          same ["tmux"; "attach-session"; "-t"; Name project] ||
          same ["tmux"; "switch-client"; "-t"; Name project]
      end
  end.

(** A proper element of a cleaned path. *)
Definition proper_element (e : string) : Prop :=
  e <> "" /\ e <> "." /\ e <> "..".

(** A [tmux] whose server cannot be reached. *)
Definition unreachable_tmux (t : list Event) (argv : list string)
  : string * option error :=
  ("error connecting to /tmp/tmux-1000/default (Permission denied)",
   Some "exit status 1").
Definition unreachable_os : OS := sample_os "/home/u" [] unreachable_tmux.

(** The sample surroundings seen from inside a [tmux] client, with the
    session [proj] there. *)
Definition inside_os : OS :=
  mkOS (sample_env "/home/u" "/tmp/tmux-1000/default,4242,0") (Ok "/home/u")
       [] "-" (fun _ => Ok (mkConfig [])) sample_walk (fun l => l)
       (fun _ => Ok 0%nat) (sample_tmux ["proj"]).

Definition no_config_os : OS :=
  mkOS (sample_env "/home/u" "") (Ok "/home/u")
       ["~/code/**/{.git}"] "-" (fun _ => Err "open /home/u/-: no such file or directory")
       sample_walk (fun l => l) (fun _ => Ok 0%nat) (sample_tmux []).

(** A file system where [/home/u/code] holds the repository
    [project-a], for patterns with a plain last segment. *)
Definition marker_walk (base pattern : string) : list string * option error :=
  if String.eqb base "/home/u/code" && String.eqb pattern "*/.git" then
    (["project-a/.git"], None)
  else ([], None).
Definition marker_os : OS :=
  mkOS (sample_env "/home/u" "") (Ok "/home/u") [] "-"
       (fun _ => Ok (mkConfig [])) marker_walk (fun l => l)
       (fun _ => Ok 0%nat) (sample_tmux []).

(** How many times the orchestrator joined a session: the
    [attach-session] and [switch-client] commands started. *)
Definition joined (t : list Event) : nat :=
  (issued "attach-session" t + issued "switch-client" t)%nat.

(** * Properties *)

(** ** The library models on examples of the library documentation *)

Example Clean_examples :
  path.Clean "/home/u//code/./x/.." = "/home/u/code" /\
  path.Clean "../a/../../b/" = "../../b" /\
  path.Clean "/../a" = "/a" /\ path.Clean "" = "." /\ path.Clean "a/.." = "." /\
  path.Clean "/" = "/".
Proof. repeat split; reflexivity. Qed.

Example Dir_Base_examples :
  path.Dir "project-a/.git" = "project-a" /\ path.Dir ".git" = "." /\
  path.Dir "a/b/.git" = "a/b" /\ path.Dir "/a" = "/" /\
  path.Base "/home/u/code" = "code" /\ path.Base "/" = "/" /\
  path.Base "" = "." /\ path.Base "a/b//" = "b" /\
  path.Join ["/home/u/code"; "project-a"] = "/home/u/code/project-a" /\
  path.Join ["/home/u/code"; "."] = "/home/u/code" /\
  path.Join [""; "a"] = "a" /\ path.Join [""; ""] = "".
Proof. repeat split; reflexivity. Qed.

Example Rel_examples :
  filepath.Rel "/home/u" "/home/u/code/project-a" = Ok "code/project-a" /\
  filepath.Rel "/home/u" "/srv/x" = Ok "../../srv/x" /\
  filepath.Rel "/" "/a" = Ok "a" /\ filepath.Rel "/a/b" "/a" = Ok ".." /\
  filepath.Rel "/a" "/a/" = Ok "." /\ filepath.Rel "." "a/b" = Ok "a/b" /\
  is_Err (filepath.Rel "" "/home/u/code") = true /\
  is_Err (filepath.Rel ".." "a") = true /\
  is_Err (filepath.Rel "../.." "..") = true /\
  filepath.Rel "a/b/c" "a/c/d" = Ok "../../c/d".
Proof. repeat split; reflexivity. Qed.

Example SplitPattern_examples :
  doublestar.SplitPattern "/home/u/code/**/{.git}" = ("/home/u/code", "**/{.git}") /\
  doublestar.SplitPattern "/home/u/code" = ("/home/u", "code") /\
  doublestar.SplitPattern "/**/{.git}" = ("/", "**/{.git}") /\
  doublestar.SplitPattern "*/x" = (".", "*/x") /\
  doublestar.SplitPattern "../../path/to/meta*/**" = ("../../path/to", "meta*/**").
Proof. repeat split; reflexivity. Qed.

Example glob_meta_examples :
  regexp.glob_meta_found "{.git}" = true /\ regexp.glob_meta_found ".git" = false /\
  regexp.glob_meta_found "a[bc" = false /\ regexp.glob_meta_found "x[0-9]" = true /\
  regexp.glob_meta_found "code" = false /\ regexp.glob_meta_found "*" = true.
Proof. repeat split; reflexivity. Qed.

Example Slice_example :
  sort.Slice Nat.ltb [3; 1; 2; 1] = [1; 1; 2; 3].
Proof. reflexivity. Qed.

(** ** The map [ret] as a fold over the stored projects *)

Section Resolver.
Context (v : Variant) (os : OS).

Lemma walk_callback_store base used home p ret :
  walk_callback v base used home p ret =
    match match_project v base used home p with
    | Err e => (ret, Some e)
    | Ok None => (ret, None)
    | Ok (Some project) => (store ret project, None)
    end.
Proof. reflexivity. Qed.

Lemma GlobWalk_visit_fold base used home matches walk_err ret :
  fst (GlobWalk_visit (walk_callback v base used home) matches walk_err ret) =
    fold_left store (walk_projects v base used home matches) ret.
Proof.
  revert ret. induction matches as [|p ms IH]; intros ret; simpl; [done|].
  rewrite walk_callback_store.
  destruct (match_project v base used home p) as [[project|]|e]; simpl; auto.
Qed.

Lemma resolve_base_fold basePattern ret :
  resolve_base v os basePattern ret =
    fold_left store (base_projects v os basePattern) ret.
Proof.
  unfold resolve_base, base_projects, GlobWalk.
  destruct (doublestar.SplitPattern basePattern) as [base pattern].
  destruct (glob_walk os base pattern) as [matches walk_err]; simpl.
  apply GlobWalk_visit_fold.
Qed.

Lemma resolve_bases_fold bases ret t :
  fst (resolve_bases v os bases ret t) =
    fold_left store (flat_map (base_projects v os) bases) ret.
Proof.
  revert ret t. induction bases as [|b bs IH]; intros ret t; simpl; [done|].
  destruct (doublestar.SplitPattern b) as [base pattern] eqn:Hsplit.
  rewrite IH, resolve_base_fold, fold_left_app. done.
Qed.

Lemma resolve_bases_trace bases ret t :
  snd (resolve_bases v os bases ret t) =
    t ++ List.map (fun b => Walk (fst (doublestar.SplitPattern b))
                                 (snd (doublestar.SplitPattern b))) bases.
Proof.
  revert ret t. induction bases as [|b bs IH]; intros ret t; simpl.
  - by rewrite app_nil_r.
  - destruct (doublestar.SplitPattern b) as [base pattern] eqn:Hsplit.
    rewrite IH. simpl. by rewrite <- app_assoc.
Qed.

End Resolver.

Lemma keyed_empty : keyed ∅.
Proof. intros k project. by rewrite lookup_empty. Qed.

Lemma keyed_store ret project : keyed ret -> keyed (store ret project).
Proof.
  intros Hk k q. unfold store. rewrite lookup_insert.
  case_decide; [naive_solver|]. apply Hk.
Qed.

Lemma keyed_fold projects ret :
  keyed ret -> keyed (fold_left store projects ret).
Proof.
  revert ret. induction projects as [|q qs IH]; intros ret Hk; simpl; [done|].
  by apply IH, keyed_store.
Qed.

Lemma fold_store_lookup projects ret k :
  is_Some (fold_left store projects ret !! k) <->
  is_Some (ret !! k) \/ In k (List.map FullPath projects).
Proof.
  revert ret. induction projects as [|q qs IH]; intros ret; simpl; [tauto|].
  rewrite IH. unfold store. rewrite lookup_insert.
  case_decide as Hq.
  - split; [intros [_|Hin]; auto|intros _; eauto].
  - split; [intros [Hs|Hin]; auto|intros [Hs|[Hq'|Hin]]; auto; done].
Qed.

Lemma keyed_values_paths (ret : gmap string Project) :
  keyed ret ->
  List.map FullPath (List.map snd (map_to_list ret)) = List.map fst (map_to_list ret).
Proof.
  intros Hk. rewrite List.map_map. apply List.map_ext_in.
  intros [k project] Hin. simpl.
  apply Hk. apply elem_of_map_to_list. by apply list_elem_of_In.
Qed.

(** ** The insertion sort gives a permutation in order *)

Section SliceFacts.
Context {A : Type} (less : A -> A -> bool).

Lemma insert_left_perm x sorted :
  Permutation (sort.insert_left less x sorted) (x :: sorted).
Proof.
  induction sorted as [|y ys IH]; simpl; [done|].
  destruct (less x y); [|done].
  rewrite IH. apply perm_swap.
Qed.

Lemma Slice_fold_perm s acc :
  Permutation (fold_left (fun sorted x => sort.insert_left less x sorted) s acc)
              (s ++ acc).
Proof.
  revert acc. induction s as [|x xs IH]; intros acc; simpl; [done|].
  rewrite IH, insert_left_perm. by rewrite Permutation_middle.
Qed.

Lemma Slice_perm s : Permutation (sort.Slice less s) s.
Proof.
  unfold sort.Slice. rewrite <- Permutation_rev, Slice_fold_perm.
  by rewrite app_nil_r.
Qed.

Hypothesis less_asym : forall a b, less a b = true -> less b a = false.
Hypothesis ge_trans : forall a b c, sort.ge less a b -> sort.ge less b c -> sort.ge less a c.

Lemma insert_left_sorted x sorted :
  StronglySorted (fun a b => sort.ge less b a) sorted ->
  StronglySorted (fun a b => sort.ge less b a) (sort.insert_left less x sorted).
Proof.
  induction sorted as [|y ys IH]; intros Hs; simpl.
  - repeat constructor.
  - apply StronglySorted_inv in Hs as [Hys Hy].
    destruct (less x y) eqn:Hxy.
    + constructor; [by apply IH|].
      apply Forall_forall. intros z Hz.
      rewrite insert_left_perm in Hz. apply elem_of_cons in Hz as [->|Hz].
      * by apply less_asym.
      * revert z Hz. by apply Forall_forall.
    + constructor; [by constructor|].
      constructor; [exact Hxy|].
      apply Forall_forall. intros z Hz.
      apply ge_trans with y; [|exact Hxy].
      revert z Hz. by apply Forall_forall.
Qed.

Lemma Slice_fold_sorted s acc :
  StronglySorted (fun a b => sort.ge less b a) acc ->
  StronglySorted (fun a b => sort.ge less b a)
    (fold_left (fun sorted x => sort.insert_left less x sorted) s acc).
Proof.
  revert acc. induction s as [|x xs IH]; intros acc Hacc; simpl; [done|].
  by apply IH, insert_left_sorted.
Qed.

Lemma StronglySorted_rev_flip (R : A -> A -> Prop) l :
  StronglySorted (fun a b => R b a) l -> StronglySorted R (List.rev l).
Proof.
  induction 1 as [|x l Hl IH Hx]; simpl; [constructor|].
  apply StronglySorted_app_2; [|done|repeat constructor].
  intros a b Ha Hb.
  apply list_elem_of_In in Ha. apply in_rev in Ha. apply list_elem_of_In in Ha.
  apply list_elem_of_singleton in Hb as ->.
  revert a Ha. by apply Forall_forall.
Qed.

Lemma Slice_sorted s : StronglySorted (sort.ge less) (sort.Slice less s).
Proof.
  unfold sort.Slice. apply StronglySorted_rev_flip, Slice_fold_sorted. constructor.
Qed.

End SliceFacts.

(** ** The comparison of names *)

Lemma gt_leb a b : strings.gt a b = negb (String.leb a b).
Proof. unfold strings.gt, String.leb. by destruct (String.compare a b). Qed.

Lemma name_less_asym a b : name_less a b = true -> name_less b a = false.
Proof.
  unfold name_less, strings.gt.
  rewrite (String.compare_antisym (strings.ToLower (Name a))).
  by destruct (String.compare _ _).
Qed.

Lemma name_ge_trans a b c :
  sort.ge name_less a b -> sort.ge name_less b c -> sort.ge name_less a c.
Proof.
  unfold sort.ge, name_less. rewrite !gt_leb, !negb_false_iff.
  intros Hba Hcb.
  apply Is_true_true. apply Is_true_true in Hba, Hcb.
  exact (transitivity (R := String.le) Hcb Hba).
Qed.

Lemma name_ge_compare a b :
  sort.ge name_less a b <->
  String.compare (strings.ToLower (Name a)) (strings.ToLower (Name b)) <> Lt.
Proof.
  unfold sort.ge, name_less, strings.gt.
  rewrite (String.compare_antisym (strings.ToLower (Name a))).
  destruct (String.compare _ _); simpl; split; congruence.
Qed.

(** ** The result of [findProjectDirectories] *)

Lemma findProjectDirectories_result v os cfg t :
  fst (snd (findProjectDirectories v os cfg t)) =
    let res := List.map snd (map_range os
                 (map_to_list (fold_left store (discovered v os cfg) ∅))) in
    match v with
    | MainGo => res
    | Part000 => sort.Slice name_less res
    end.
Proof.
  unfold findProjectDirectories, discovered.
  pose proof (resolve_bases_fold v os (ProjectBase cfg) ∅ t) as Hfold.
  destruct (resolve_bases v os (ProjectBase cfg) ∅ t) as [ret t']; simpl in *.
  by rewrite Hfold.
Qed.

Lemma findProjectDirectories_perm v os cfg t :
  range_is_permutation os ->
  Permutation (fst (snd (findProjectDirectories v os cfg t)))
    (List.map snd (map_to_list (fold_left store (discovered v os cfg) ∅))).
Proof.
  intros Hrange. rewrite findProjectDirectories_result. simpl.
  destruct v; [|rewrite Slice_perm]; apply Permutation_map, Hrange.
Qed.

Lemma findProjectDirectories_paths v os cfg t :
  range_is_permutation os ->
  Permutation (List.map FullPath (fst (snd (findProjectDirectories v os cfg t))))
    (List.map fst (map_to_list (fold_left store (discovered v os cfg) ∅))).
Proof.
  intros Hrange.
  rewrite (Permutation_map FullPath (findProjectDirectories_perm v os cfg t Hrange)).
  rewrite keyed_values_paths; [done|]. apply keyed_fold, keyed_empty.
Qed.

Lemma discovered_in_result v os cfg t project :
  range_is_permutation os ->
  In project (discovered v os cfg) ->
  In (FullPath project) (List.map FullPath (fst (snd (findProjectDirectories v os cfg t)))).
Proof.
  intros Hrange Hin.
  apply (Permutation_in _ (Permutation_sym (findProjectDirectories_paths v os cfg t Hrange))).
  assert (is_Some (fold_left store (discovered v os cfg) ∅ !! FullPath project))
    as [q Hq].
  { apply fold_store_lookup. right. by apply in_map. }
  apply in_map_iff. exists (FullPath project, q). split; [done|].
  apply list_elem_of_In. by apply elem_of_map_to_list.
Qed.

(** C1.  Whatever the configuration and the order in which the map is
    ranged over, no two projects of the list returned by
    [findProjectDirectories] have the same full path, and the full path
    of every project stored during the walks, however many matches and
    base patterns led to it, occurs exactly once in the list. *)
Theorem findProjectDirectories_one_project_per_path v os cfg t :
  range_is_permutation os ->
  let res := fst (snd (findProjectDirectories v os cfg t)) in
  List.NoDup (List.map FullPath res) /\
  forall project, In project (discovered v os cfg) ->
    count_occ string_dec (List.map FullPath res) (FullPath project) = 1%nat.
Proof.
  intros Hrange res.
  assert (List.NoDup (List.map FullPath res)) as Hnodup.
  { apply (Permutation_NoDup
             (Permutation_sym (findProjectDirectories_paths v os cfg t Hrange))).
    apply NoDup_ListNoDup, NoDup_fst_map_to_list. }
  split; [exact Hnodup|].
  intros project Hin.
  apply (proj1 (NoDup_count_occ' string_dec _) Hnodup).
  by apply discovered_in_result.
Qed.

Lemma findProjectDirectories_strongly_sorted os cfg t :
  StronglySorted (sort.ge name_less)
    (fst (snd (findProjectDirectories Part000 os cfg t))).
Proof.
  rewrite findProjectDirectories_result. simpl.
  apply Slice_sorted; [apply name_less_asym|apply name_ge_trans].
Qed.

Lemma StronglySorted_lookup {A} (R : A -> A -> Prop) (l : list A) i j a b :
  StronglySorted R l -> (i < j)%nat ->
  nth_error l i = Some a -> nth_error l j = Some b -> R a b.
Proof.
  intros Hs. revert i j a b.
  induction Hs as [|x l Hl IH Hx]; intros i j a b Hij Hi Hj.
  - by destruct i.
  - destruct j as [|j]; [lia|]. simpl in Hj. destruct i as [|i]; simpl in Hi.
    + injection Hi as <-. apply nth_error_In, list_elem_of_In in Hj.
      revert b Hj. by apply Forall_forall.
    + apply (IH i j); [lia|done..].
Qed.

(** C10.  In the variant that sorts, the list returned by
    [findProjectDirectories] is in descending order of the names in
    lower case: of two results, the one at the smaller index has the
    lower-case name that is greater or equal in the byte order; this for
    every order of the walk and of the range over the map. *)
Theorem findProjectDirectories_sorted_by_name os cfg t i j a b :
  let res := fst (snd (findProjectDirectories Part000 os cfg t)) in
  (i < j)%nat -> nth_error res i = Some a -> nth_error res j = Some b ->
  String.compare (strings.ToLower (Name a)) (strings.ToLower (Name b)) <> Lt.
Proof.
  intros res Hij Hi Hj. apply name_ge_compare.
  exact (StronglySorted_lookup _ _ i j a b
           (findProjectDirectories_strongly_sorted os cfg t) Hij Hi Hj).
Qed.

(** ** From a match to a project *)

Lemma match_project_marker_parent v base home p project :
  match_project v base true home p = Ok (Some project) ->
  strings.Contains p "/" = true ->
  Name project = path.Dir p /\ FullPath project = path.Join [base; path.Dir p].
Proof.
  unfold match_project. intros Hm Hslash.
  destruct v; simpl in Hm; [|rewrite Hslash in Hm; simpl in Hm];
    destruct (filepath.Rel _ _); by simplify_eq.
Qed.

Lemma match_project_base_marker base home p project :
  match_project Part000 base true home p = Ok (Some project) ->
  strings.Contains p "/" = false ->
  Name project = path.Base base /\
  FullPath project = path.Join [base; path.Base base].
Proof.
  unfold match_project. intros Hm Hslash. rewrite Hslash in Hm. simpl in Hm.
  destruct (filepath.Rel _ _); by simplify_eq.
Qed.

Lemma match_project_literal base home p rel :
  filepath.Rel home (path.Join [base; p]) = Ok rel ->
  match_project Part000 base false home p =
    Ok (Some (mkProject p (path.Join [base; p]) rel)).
Proof. unfold match_project. simpl. by intros ->. Qed.

Lemma match_project_literal_is_Err base home p :
  is_Err (match_project Part000 base false home p) =
  is_Err (filepath.Rel home (path.Join [base; p])).
Proof.
  unfold match_project. cbv beta iota zeta.
  by destruct (filepath.Rel home (path.Join [base; p])).
Qed.

Lemma match_project_literal_main base home p :
  match_project MainGo base false home p = Ok None.
Proof. reflexivity. Qed.

Example marker_example v :
  match_project v "/home/u/code" true "/home/u" "project-a/.git" =
    Ok (Some (mkProject "project-a" "/home/u/code/project-a" "code/project-a")).
Proof. destruct v; vm_compute; reflexivity. Qed.

(** C2.  A marker directly under the base directory in the variant that
    sorts: for the base pattern [/home/u/**/{.git}] and the match [.git],
    whose parent directory is [/home/u], the project stored has the full
    path [/home/u/u], and the list returned has no project with the full
    path [/home/u]. *)
Theorem marker_at_base_full_path :
  doublestar.SplitPattern "/home/u/**/{.git}" = ("/home/u", "**/{.git}") /\
  regexp.glob_meta_found (path.Base "**/{.git}") = true /\
  In ".git" (fst (glob_walk home_os "/home/u" "**/{.git}")) /\
  match_project Part000 "/home/u" true "/home/u" ".git" =
    Ok (Some (mkProject "u" "/home/u/u" "u")) /\
  let res := fst (snd (findProjectDirectories Part000 home_os
                         (mkConfig ["/home/u/**/{.git}"]) [])) in
  In (mkProject "u" "/home/u/u" "u") res /\
  ~ In "/home/u" (List.map FullPath res).
Proof.
  split; [vm_compute; reflexivity|]. split; [vm_compute; reflexivity|].
  split; [vm_compute; tauto|]. split; [vm_compute; reflexivity|].
  vm_compute. split; [tauto|]. intros H; decompose [or] H; congruence.
Qed.

(** C3.  A marker directly under the base directory in main.go: for the
    base pattern [/home/u/**/{.git}] and the match [.git] the project
    stored, and returned, has the name ["."], not the last element [u]
    of the base directory. *)
Theorem marker_at_base_name_main :
  doublestar.SplitPattern "/home/u/**/{.git}" = ("/home/u", "**/{.git}") /\
  regexp.glob_meta_found (path.Base "**/{.git}") = true /\
  In ".git" (fst (glob_walk home_os "/home/u" "**/{.git}")) /\
  strings.Contains ".git" "/" = false /\
  path.Base "/home/u" = "u" /\
  match_project MainGo "/home/u" true "/home/u" ".git" =
    Ok (Some (mkProject "." "/home/u" ".")) /\
  In (mkProject "." "/home/u" ".")
     (fst (snd (findProjectDirectories MainGo home_os
                  (mkConfig ["/home/u/**/{.git}"]) []))).
Proof.
  split; [vm_compute; reflexivity|]. split; [vm_compute; reflexivity|].
  split; [vm_compute; tauto|]. split; [vm_compute; reflexivity|].
  split; [vm_compute; reflexivity|]. split; [vm_compute; reflexivity|].
  vm_compute. tauto.
Qed.

(** ** The project stored last under a path is the one returned *)

Lemma fold_store_absent projects ret k :
  Forall (fun q => FullPath q <> k) projects ->
  fold_left store projects ret !! k = ret !! k.
Proof.
  revert ret. induction projects as [|q qs IH]; intros ret Hne; simpl; [done|].
  apply Forall_cons in Hne as [Hq Hqs].
  rewrite IH by done. unfold store. by rewrite lookup_insert_ne.
Qed.

Lemma fold_store_last earlier project later ret :
  Forall (fun q => FullPath q <> FullPath project) later ->
  fold_left store (earlier ++ project :: later) ret !! FullPath project = Some project.
Proof.
  intros Hne. rewrite fold_left_app. simpl.
  rewrite fold_store_absent by done. unfold store. apply lookup_insert_eq.
Qed.

Lemma stored_in_result v os cfg t project :
  range_is_permutation os ->
  fold_left store (discovered v os cfg) ∅ !! FullPath project = Some project ->
  In project (fst (snd (findProjectDirectories v os cfg t))).
Proof.
  intros Hrange Hlook.
  apply (Permutation_in _ (Permutation_sym (findProjectDirectories_perm v os cfg t Hrange))).
  apply in_map_iff. exists (FullPath project, project). split; [done|].
  apply list_elem_of_In. by apply elem_of_map_to_list.
Qed.

Lemma walk_projects_app v base used home before rest :
  Forall (fun q => is_Err (match_project v base used home q) = false) before ->
  walk_projects v base used home (before ++ rest) =
    walk_projects v base used home before ++ walk_projects v base used home rest.
Proof.
  induction 1 as [|q qs Hq Hqs IH]; simpl; [done|].
  destruct (match_project v base used home q) as [[project|]|e]; simpl in *;
    [by rewrite IH|done|done].
Qed.

Lemma walk_projects_cons v base used home p matches :
  walk_projects v base used home (p :: matches) =
    match match_project v base used home p with
    | Err _ => []
    | Ok None => walk_projects v base used home matches
    | Ok (Some project) => project :: walk_projects v base used home matches
    end.
Proof. reflexivity. Qed.

Lemma discovered_app v os pre post :
  discovered v os (mkConfig (pre ++ post)) =
    discovered v os (mkConfig pre) ++ discovered v os (mkConfig post).
Proof. unfold discovered. simpl. apply flat_map_app. Qed.

Lemma discovered_cons v os b post :
  discovered v os (mkConfig (b :: post)) =
    base_projects v os b ++ discovered v os (mkConfig post).
Proof. reflexivity. Qed.

(** C4 (amended).  In the variant that sorts, for a base pattern whose
    last segment has no glob metacharacter, every match that the walk
    reaches with the home-relative paths computed so far, its own
    included, is taken as the project: a project whose name is the
    matched path as it is and whose full path is the join of the base
    directory and the match is stored; the list returned has a project
    with that full path, and it is this very project unless one stored
    later has the same full path. *)
Theorem literal_match_is_project os pre basePattern post t base pattern
    before p after rel :
  range_is_permutation os ->
  doublestar.SplitPattern basePattern = (base, pattern) ->
  regexp.glob_meta_found (path.Base pattern) = false ->
  fst (glob_walk os base pattern) = before ++ p :: after ->
  Forall (fun q => is_Err (filepath.Rel (fst (UserHomeDir os))
                             (path.Join [base; q])) = false) before ->
  filepath.Rel (fst (UserHomeDir os)) (path.Join [base; p]) = Ok rel ->
  let cfg := mkConfig (pre ++ basePattern :: post) in
  let project := mkProject p (path.Join [base; p]) rel in
  let later :=
    walk_projects Part000 base false (fst (UserHomeDir os)) after ++
    discovered Part000 os (mkConfig post) in
  let res := fst (snd (findProjectDirectories Part000 os cfg t)) in
  In project (discovered Part000 os cfg) /\
  In (path.Join [base; p]) (List.map FullPath res) /\
  (Forall (fun q => FullPath q <> path.Join [base; p]) later -> In project res).
Proof.
  intros Hrange Hsplit Hlit Hwalk Hbefore Hrel cfg project later res.
  assert (discovered Part000 os cfg =
            (discovered Part000 os (mkConfig pre) ++
             walk_projects Part000 base false (fst (UserHomeDir os)) before) ++
            project :: later) as Hdisc.
  { unfold cfg. rewrite discovered_app, discovered_cons.
    unfold base_projects at 1. rewrite Hsplit, Hlit, Hwalk.
    rewrite walk_projects_app.
    - rewrite walk_projects_cons, (match_project_literal _ _ _ _ Hrel).
      unfold later. by rewrite <- !app_assoc.
    - eapply Forall_impl; [exact Hbefore|]. intros q Hq.
      by rewrite match_project_literal_is_Err. }
  assert (In project (discovered Part000 os cfg)) as Hin.
  { rewrite Hdisc. apply in_elt. }
  split; [exact Hin|]. split.
  - exact (discovered_in_result Part000 os cfg t project Hrange Hin).
  - intros Hlater. apply stored_in_result; [done|].
    rewrite Hdisc. by apply (fold_store_last _ project).
Qed.

(** C4 (the claim as it stands fails).  With [HOME] not set the variant
    that sorts stores nothing for the match [code] of the base pattern
    [/home/u/code], which has no glob metacharacter: the home-relative
    path cannot be computed and the callback returns the error.
    main.go stores nothing for such a pattern even with [HOME] set. *)
Lemma literal_match_not_stored :
  doublestar.SplitPattern "/home/u/code" = ("/home/u", "code") /\
  regexp.glob_meta_found (path.Base "code") = false /\
  fst (glob_walk no_home_os "/home/u" "code") = ["code"] /\
  fst (snd (findProjectDirectories Part000 no_home_os
              (mkConfig ["/home/u/code"]) [])) = [] /\
  fst (glob_walk home_os "/home/u" "code") = ["code"] /\
  fst (snd (findProjectDirectories MainGo home_os
              (mkConfig ["/home/u/code"]) [])) = [].
Proof. repeat split; vm_compute; reflexivity. Qed.

(** ** Errors of a walk *)

Lemma GlobWalk_visit_walk_err fn matches walk_err ret :
  fst (GlobWalk_visit fn matches walk_err ret) =
  fst (GlobWalk_visit fn matches None ret).
Proof.
  revert ret. induction matches as [|p ms IH]; intros ret; simpl; [done|].
  destruct (fn p ret) as [ret' [e|]]; [done|apply IH].
Qed.

Lemma resolve_base_without_walk_errors v os b ret :
  resolve_base v (without_walk_errors os) b ret = resolve_base v os b ret.
Proof.
  unfold resolve_base, GlobWalk. simpl.
  destruct (doublestar.SplitPattern b) as [base pattern].
  destruct (glob_walk os base pattern) as [matches walk_err]; simpl.
  symmetry. apply GlobWalk_visit_walk_err.
Qed.

Lemma resolve_bases_without_walk_errors v os bases ret t :
  resolve_bases v (without_walk_errors os) bases ret t = resolve_bases v os bases ret t.
Proof.
  revert ret t. induction bases as [|b bs IH]; intros ret t; simpl; [done|].
  destruct (doublestar.SplitPattern b) as [base pattern].
  by rewrite resolve_base_without_walk_errors, IH.
Qed.

Lemma findProjectDirectories_without_walk_errors v os cfg t :
  findProjectDirectories v (without_walk_errors os) cfg t =
  findProjectDirectories v os cfg t.
Proof.
  unfold findProjectDirectories. by rewrite resolve_bases_without_walk_errors.
Qed.

Lemma findProjectDirectories_no_error v os cfg t :
  snd (snd (findProjectDirectories v os cfg t)) = None.
Proof.
  unfold findProjectDirectories.
  by destruct (resolve_bases v os (ProjectBase cfg) ∅ t).
Qed.

(** C9 (amended).  When the walk for one base pattern ends with an
    error, [findProjectDirectories] drops the error: it returns no error,
    and returns and does exactly what it would had the walk ended
    without one.  The walks for the other base patterns are not cut
    short: the full path of every project they store is the full path
    of a project of the list returned. *)
Theorem walk_error_dropped v os pre bad post t base pattern e :
  range_is_permutation os ->
  doublestar.SplitPattern bad = (base, pattern) ->
  snd (glob_walk os base pattern) = Some e ->
  let cfg := mkConfig (pre ++ bad :: post) in
  let out := findProjectDirectories v os cfg t in
  snd (snd out) = None /\
  out = findProjectDirectories v (without_walk_errors os) cfg t /\
  forall project, In project (discovered v os (mkConfig (pre ++ post))) ->
    In (FullPath project) (List.map FullPath (fst (snd out))).
Proof.
  intros Hrange Hsplit Herr cfg out.
  split; [apply findProjectDirectories_no_error|].
  split; [by rewrite findProjectDirectories_without_walk_errors|].
  intros project Hin. apply discovered_in_result; [done|].
  unfold cfg. rewrite discovered_app, discovered_cons.
  rewrite discovered_app in Hin. apply in_app_or in Hin as [Hin|Hin].
  - apply in_or_app. by left.
  - apply in_or_app. right. apply in_or_app. by right.
Qed.

(** C9 (the claim as it stands fails).  The walk for the malformed
    pattern below [/srv] ends with an error, and nothing reports it: in
    both variants [findProjectDirectories] returns no error, and the
    same events and list as with a walk that ends without the error. *)
Lemma walk_error_not_reported :
  let cfg := mkConfig ["/srv/**/["; "/home/u/code/**/{.git}"] in
  doublestar.SplitPattern "/srv/**/[" = ("/srv", "**/[") /\
  snd (glob_walk home_os "/srv" "**/[") = Some "syntax error in pattern" /\
  snd (snd (findProjectDirectories MainGo home_os cfg [])) = None /\
  snd (snd (findProjectDirectories Part000 home_os cfg [])) = None /\
  findProjectDirectories MainGo home_os cfg [] =
    findProjectDirectories MainGo (without_walk_errors home_os) cfg [] /\
  findProjectDirectories Part000 home_os cfg [] =
    findProjectDirectories Part000 (without_walk_errors home_os) cfg [].
Proof. repeat split; vm_compute; reflexivity. Qed.

(** ** The session orchestrator, step by step *)

Section Orchestrator.
Context (v : Variant) (os : OS) (project : Project).

Lemma startOrAttachToTmux_listing_fails fuel t output e :
  run_command os t list_sessions = (output, Some e) ->
  strings.Contains output "no server running" = false ->
  startOrAttachToTmux (S fuel) v os project t =
    Some (t ++ [Exec list_sessions; Print ("false" +:+ String regexp.newline "")],
          Some ("failed to list sessions: " +:+ e)).
Proof.
  intros Hrun Hno. simpl. unfold list_sessions in Hrun. rewrite Hrun, Hno. simpl.
  by rewrite <- app_assoc.
Qed.

Lemma startOrAttachToTmux_joins fuel t :
  listing_usable (run_command os t list_sessions) = true ->
  session_listed project (fst (run_command os t list_sessions)) = true ->
  startOrAttachToTmux (S fuel) v os project t =
    Some (t ++ check_events v os t
            ++ fst (join_events v os project (t ++ check_events v os t)),
          snd (join_events v os project (t ++ check_events v os t))).
Proof.
  unfold listing_usable, session_listed, check_events, join_events, list_sessions.
  simpl. destruct (run_command os t ["tmux"; "list-sessions"]) as [output err].
  simpl. intros Husable Hlisted. rewrite Hlisted.
  assert (match err with
          | Some e => if negb (strings.Contains output "no server running")
                      then Some e else None
          | None => None
          end = None) as ->.
  { destruct err; [|done]. by rewrite Husable. }
  destruct v, (negb (String.eqb (Getenv os "TMUX") "")); simpl;
    unfold resetTerminal, runTmuxCommand, run; simpl;
    repeat rewrite <- app_assoc; simpl; try done;
    by destruct (run_command os _ _).
Qed.

Lemma startOrAttachToTmux_creates fuel t :
  listing_usable (run_command os t list_sessions) = true ->
  session_listed project (fst (run_command os t list_sessions)) = false ->
  let t1 := t ++ check_events v os t in
  startOrAttachToTmux (S fuel) v os project t =
    match snd (run_command os t1 (new_session_argv v project)) with
    | Some e => Some (t1 ++ [Exec (new_session_argv v project)], Some e)
    | None =>
        startOrAttachToTmux fuel v os project
          (t1 ++ [Exec (new_session_argv v project)])
    end.
Proof.
  unfold listing_usable, session_listed, check_events, new_session_argv, list_sessions.
  simpl. destruct (run_command os t ["tmux"; "list-sessions"]) as [output err].
  simpl. intros Husable Hlisted. rewrite Hlisted.
  assert (match err with
          | Some e => if negb (strings.Contains output "no server running")
                      then Some e else None
          | None => None
          end = None) as ->.
  { destruct err; [|done]. by rewrite Husable. }
  destruct v; simpl; unfold resetTerminal, runTmuxCommand, run; simpl;
    repeat rewrite <- app_assoc; simpl.
  - destruct (run_command os _ _) as [out [e|]]; simpl; done.
  - destruct (run_command os _ _) as [out [e|]]; simpl; done.
Qed.

End Orchestrator.

Lemma issued_app sub t1 t2 : issued sub (t1 ++ t2) = (issued sub t1 + issued sub t2)%nat.
Proof. unfold issued. by rewrite List.filter_app, length_app. Qed.

Lemma issued_check_events v os t :
  issued "new-session" (check_events v os t) = 0%nat /\
  issued "list-sessions" (check_events v os t) = 1%nat /\
  issued "attach-session" (check_events v os t) = 0%nat /\
  issued "switch-client" (check_events v os t) = 0%nat.
Proof. by destruct v. Qed.

Lemma issued_new_session v project :
  issued "new-session" [Exec (new_session_argv v project)] = 1%nat /\
  issued "list-sessions" [Exec (new_session_argv v project)] = 0%nat.
Proof. destruct v; split; vm_compute; reflexivity. Qed.

Lemma issued_join_events v os project t :
  issued "new-session" (fst (join_events v os project t)) = 0%nat /\
  issued "list-sessions" (fst (join_events v os project t)) = 0%nat.
Proof.
  unfold join_events.
  destruct v, (negb (String.eqb (Getenv os "TMUX") "")); split; reflexivity.
Qed.

(** C5 (amended).  When the listing of the sessions can be used and no
    line of it contains the name of the project, the orchestrator starts
    one [new-session] command.  If the command fails, the orchestrator
    returns its error and checks nothing again.  If it succeeds and the
    second listing can be used and has a line with the name, the
    orchestrator ends there, with the switch or the attachment (printed
    only in main.go): in all it has started one [new-session] command
    and two listings. *)
Theorem create_once_then_join v os project t fuel :
  listing_usable (run_command os t list_sessions) = true ->
  session_listed project (fst (run_command os t list_sessions)) = false ->
  let create := new_session_argv v project in
  let t1 := t ++ check_events v os t in
  let t2 := t1 ++ [Exec create] in
  let t3 := t2 ++ check_events v os t2 in
  (forall e, snd (run_command os t1 create) = Some e ->
     startOrAttachToTmux (S fuel) v os project t = Some (t2, Some e) /\
     issued "new-session" (check_events v os t ++ [Exec create]) = 1%nat /\
     issued "list-sessions" (check_events v os t ++ [Exec create]) = 1%nat) /\
  (snd (run_command os t1 create) = None ->
   listing_usable (run_command os t2 list_sessions) = true ->
   session_listed project (fst (run_command os t2 list_sessions)) = true ->
   let done := check_events v os t ++ [Exec create] ++ check_events v os t2
                 ++ fst (join_events v os project t3) in
   startOrAttachToTmux (S (S fuel)) v os project t =
     Some (t ++ done, snd (join_events v os project t3)) /\
   issued "new-session" done = 1%nat /\
   issued "list-sessions" done = 2%nat).
Proof.
  intros Husable Hlisted create t1 t2 t3.
  pose proof (issued_check_events v os t) as (Hc1 & Hc2 & _).
  pose proof (issued_check_events v os t2) as (Hc3 & Hc4 & _).
  pose proof (issued_new_session v project) as (Hn1 & Hn2).
  pose proof (issued_join_events v os project t3) as (Hj1 & Hj2).
  split.
  - intros e He. split; [|split].
    + rewrite (startOrAttachToTmux_creates v os project fuel t Husable Hlisted).
      fold create t1. by rewrite He.
    + rewrite issued_app. fold create in Hn1. lia.
    + rewrite issued_app. fold create in Hn2. lia.
  - intros Hok Husable2 Hlisted2 done. split; [|split].
    + rewrite (startOrAttachToTmux_creates v os project (S fuel) t Husable Hlisted).
      fold create t1. rewrite Hok. fold t2.
      rewrite (startOrAttachToTmux_joins v os project fuel t2 Husable2 Hlisted2).
      fold t3. unfold done, t3, t2, t1. by rewrite <- !app_assoc.
    + unfold done. rewrite !issued_app. fold create in Hn1. lia.
    + unfold done. rewrite !issued_app. fold create in Hn2. lia.
Qed.

(** C5 (the claim as it stands fails).  No server is running and
    [tmux] cannot start one: in both variants the orchestrator starts
    the [new-session] command, returns its error, and lists the sessions
    no second time. *)
Lemma create_fails_no_recheck :
  session_listed proj (fst (run_command broken_os [] list_sessions)) = false /\
  startOrAttachToTmux 5 Part000 broken_os proj [] =
    Some ([Exec list_sessions; Print ("true" +:+ String regexp.newline "");
           Exec (new_session_argv Part000 proj)], Some "exit status 1") /\
  startOrAttachToTmux 5 MainGo broken_os proj [] =
    Some ([Exec list_sessions; Print ("true" +:+ String regexp.newline "");
           Exec ["reset"]; Exec (new_session_argv MainGo proj)],
          Some "exit status 1") /\
  issued "list-sessions"
    [Exec list_sessions; Print ("true" +:+ String regexp.newline "");
     Exec (new_session_argv Part000 proj)] = 1%nat.
Proof. repeat split; vm_compute; reflexivity. Qed.

(** A name with a dot, which [tmux] turns into an underscore: the second
    listing has no line with the name, and the orchestrator starts
    [new-session] a second time. *)
Example create_twice :
  let project := mkProject "my.app" "/home/u/my.app" "my.app" in
  exists t, startOrAttachToTmux 5 Part000 home_os project [] =
              Some (t, Some "exit status 1") /\
            issued "new-session" t = 2%nat.
Proof. eexists. split; vm_compute; reflexivity. Qed.

(** Found in the listing and outside of [tmux], the variant that sorts
    starts [attach-session] on the name of the project, and no
    [new-session]. *)
Lemma attach_existing_session os project t fuel :
  Getenv os "TMUX" = "" ->
  listing_usable (run_command os t list_sessions) = true ->
  session_listed project (fst (run_command os t list_sessions)) = true ->
  let attach := ["tmux"; "attach-session"; "-t"; Name project] in
  let done := check_events Part000 os t ++ [Exec attach] in
  startOrAttachToTmux (S fuel) Part000 os project t =
    Some (t ++ done, snd (run_command os (t ++ check_events Part000 os t) attach)) /\
  issued "attach-session" done = 1%nat /\ issued "new-session" done = 0%nat.
Proof.
  intros Htmux Husable Hlisted attach done.
  rewrite (startOrAttachToTmux_joins Part000 os project fuel t Husable Hlisted).
  unfold join_events. rewrite Htmux. by cbn.
Qed.

(** C6.  main.go with the session [proj] in the listing and [TMUX] not
    set: the orchestrator lists the sessions, resets the terminal,
    prints the text of the [attach-session] command and returns; it
    starts neither [attach-session] nor [new-session]. *)
Theorem attach_only_printed_in_main fuel :
  Getenv proj_os "TMUX" = "" /\
  run_command proj_os [] list_sessions = ("proj: 1 windows", None) /\
  session_listed proj "proj: 1 windows" = true /\
  let t := [Exec list_sessions; Print ("false" +:+ String regexp.newline "");
            Exec ["reset"]; Print "tmux attach-session -t proj"] in
  startOrAttachToTmux (S fuel) MainGo proj_os proj [] = Some (t, None) /\
  issued "attach-session" t = 0%nat /\ issued "new-session" t = 0%nat.
Proof. repeat split; vm_compute; reflexivity. Qed.

(** ** [normalizePath] *)

Lemma normalizePath_Abs os p :
  normalizePath os p = filepath.Abs (Getwd os) (home_expanded os p).
Proof. reflexivity. Qed.

(** C8 (amended).  [normalizePath] never fails for the lack of a home
    directory: the error of [os.UserHomeDir] is dropped and the token
    replaced by the empty string.  It fails exactly when the path, with
    the tokens replaced, is not absolute and the working directory
    cannot be determined, and then with the error of [os.Getwd]; for a
    path without a token at its start it is [filepath.Abs]; and it
    succeeds whenever the working directory can be determined. *)
Theorem normalizePath_fails_with_Getwd os p :
  (forall e, normalizePath os p = Err e <->
             Getwd os = Err e /\ filepath.IsAbs (home_expanded os p) = false) /\
  (strings.HasPrefix p "~" = false -> strings.HasPrefix p "$HOME" = false ->
   normalizePath os p = filepath.Abs (Getwd os) p) /\
  (forall wd, Getwd os = Ok wd -> exists q, normalizePath os p = Ok q).
Proof.
  split; [|split].
  - intros e. rewrite normalizePath_Abs. unfold filepath.Abs.
    destruct (filepath.IsAbs (home_expanded os p)), (Getwd os) as [wd|e'];
      split; intros H; try discriminate; try (destruct H; discriminate).
    + injection H as ->. by split.
    + destruct H as [H _]. by rewrite H.
  - intros H1 H2. rewrite normalizePath_Abs. unfold home_expanded.
    by rewrite H1, H2.
  - intros wd Hwd. rewrite normalizePath_Abs. unfold filepath.Abs. rewrite Hwd.
    destruct (filepath.IsAbs _); eauto.
Qed.

(** C8 (the claim as it stands fails).  With [HOME] not set
    [os.UserHomeDir] fails, and [normalizePath] does not: [~/code] and
    [$HOME/code] both become [/code]. *)
Lemma normalizePath_without_home :
  strings.HasPrefix "~/code" "~" = true /\
  strings.HasPrefix "$HOME/code" "$HOME" = true /\
  UserHomeDir no_home_os = ("", Some "$HOME is not defined") /\
  normalizePath no_home_os "~/code" = Ok "/code" /\
  normalizePath no_home_os "$HOME/code" = Ok "/code".
Proof. repeat split; vm_compute; reflexivity. Qed.

(** ** [main] *)

Lemma mergeFlagsWithConfig_app os config :
  mergeFlagsWithConfig os config = Ok (mkConfig (ProjectBase config ++ flag_base os)).
Proof.
  unfold mergeFlagsWithConfig. destruct (flag_base os) as [|b bs]; simpl; [|done].
  rewrite app_nil_r. by destruct config.
Qed.

(** C7.  When the entries of the configuration file followed by those
    of the [--base] flag make an empty list, the run is over with the
    message that no project base path was provided and the exit status
    1, before any walk of the file system. *)
Theorem main_no_project_base fuel v os cfgPath config :
  normalizePath os (flag_config os) = Ok cfgPath ->
  loadConfig os cfgPath = Ok config ->
  ProjectBase config ++ flag_base os = [] ->
  exists t,
    main fuel v os = Some (t, 1%nat) /\
    t = [Print ("Error: No project base path provided" +:+ String regexp.newline "")] /\
    List.filter is_walk t = [].
Proof.
  intros Hpath Hload Hempty. eexists. split; [|split; reflexivity].
  unfold main. rewrite Hpath, Hload, mergeFlagsWithConfig_app, Hempty. reflexivity.
Qed.

(** With a base pattern the same surroundings are walked. *)
Example main_walks_with_base v :
  exists t code, main 5 v one_base_os = Some (t, code) /\
                 List.filter is_walk t = [Walk "/home/u/code" "**/{.git}"].
Proof. destruct v; do 2 eexists; split; vm_compute; reflexivity. Qed.

(** ** The theorems at work on the sample surroundings *)

Lemma sample_range_is_permutation bases run_command home :
  range_is_permutation (sample_os home bases run_command).
Proof. intros l. apply Permutation_refl. Defined.

Lemma findProjectDirectories_one_project_per_path_witness :
  range_is_permutation home_os /\
  List.NoDup (List.map FullPath
    (fst (snd (findProjectDirectories Part000 home_os sample_config [])))) /\
  count_occ string_dec
    (List.map FullPath
       (fst (snd (findProjectDirectories Part000 home_os sample_config []))))
    "/home/u/code/project-a" = 1%nat.
Proof.
  split; [apply sample_range_is_permutation|].
  destruct (findProjectDirectories_one_project_per_path Part000 home_os
              sample_config [] (sample_range_is_permutation _ _ _))
    as [Hnodup Hcount].
  split; [exact Hnodup|].
  apply (Hcount (mkProject "project-a" "/home/u/code/project-a" "code/project-a")).
  vm_compute. tauto.
Defined.

Lemma findProjectDirectories_sorted_by_name_witness :
  nth_error (fst (snd (findProjectDirectories Part000 home_os sample_config []))) 0
    = Some (mkProject "u" "/home/u/u" "u") /\
  nth_error (fst (snd (findProjectDirectories Part000 home_os sample_config []))) 1
    = Some (mkProject "code/project-a" "/home/u/code/project-a" "code/project-a") /\
  String.compare (strings.ToLower "u") (strings.ToLower "code/project-a") <> Lt.
Proof.
  split; [vm_compute; reflexivity|]. split; [vm_compute; reflexivity|].
  apply (findProjectDirectories_sorted_by_name home_os sample_config [] 0 1
           (mkProject "u" "/home/u/u" "u")
           (mkProject "code/project-a" "/home/u/code/project-a" "code/project-a"));
    [lia|vm_compute; reflexivity|vm_compute; reflexivity].
Defined.

Lemma literal_match_is_project_witness :
  let project := mkProject "code" "/home/u/code" "code" in
  let res := fst (snd (findProjectDirectories Part000 home_os
                         (mkConfig ["/home/u/code"]) [])) in
  In project (discovered Part000 home_os (mkConfig ["/home/u/code"])) /\
  In "/home/u/code" (List.map FullPath res) /\
  In project res.
Proof.
  destruct (literal_match_is_project home_os [] "/home/u/code" [] []
              "/home/u" "code" [] "code" [] "code"
              (sample_range_is_permutation _ _ _)) as (Hstored & Hpath & Hres);
    [vm_compute; reflexivity|vm_compute; reflexivity|vm_compute; reflexivity
    |constructor|vm_compute; reflexivity|].
  split; [exact Hstored|]. split; [exact Hpath|].
  apply Hres. constructor.
Defined.

Lemma walk_error_dropped_witness :
  let cfg := mkConfig ["/srv/**/["; "/home/u/code/**/{.git}"] in
  let out := findProjectDirectories Part000 home_os cfg [] in
  snd (glob_walk home_os "/srv" "**/[") = Some "syntax error in pattern" /\
  snd (snd out) = None /\
  out = findProjectDirectories Part000 (without_walk_errors home_os) cfg [] /\
  In "/home/u/code/project-a" (List.map FullPath (fst (snd out))).
Proof.
  split; [vm_compute; reflexivity|].
  destruct (walk_error_dropped Part000 home_os [] "/srv/**/["
              ["/home/u/code/**/{.git}"] [] "/srv" "**/["
              "syntax error in pattern"
              (sample_range_is_permutation _ _ _))
    as (Hnone & Hsame & Hothers);
    [vm_compute; reflexivity|vm_compute; reflexivity|].
  split; [exact Hnone|]. split; [exact Hsame|].
  apply (Hothers (mkProject "project-a" "/home/u/code/project-a" "code/project-a")).
  vm_compute. tauto.
Defined.

Lemma create_once_then_join_witness :
  exists t,
    startOrAttachToTmux 2 Part000 home_os proj [] = Some (t, None) /\
    issued "new-session" t = 1%nat /\ issued "list-sessions" t = 2%nat.
Proof.
  destruct (create_once_then_join Part000 home_os proj [] 0) as [_ Hok];
    [vm_compute; reflexivity|vm_compute; reflexivity|].
  destruct Hok as (Hrun & Hnew & Hlist);
    [vm_compute; reflexivity|vm_compute; reflexivity|vm_compute; reflexivity|].
  eexists. split; [exact Hrun|]. split; [exact Hnew|exact Hlist].
Defined.

Lemma main_no_project_base_witness :
  exists t, main 0 Part000 home_os = Some (t, 1%nat) /\
            List.filter is_walk t = [].
Proof.
  destruct (main_no_project_base 0 Part000 home_os "/home/u/-" (mkConfig []))
    as (t & Hmain & _ & Hwalk);
    [vm_compute; reflexivity|vm_compute; reflexivity|vm_compute; reflexivity|].
  exists t. split; [exact Hmain|exact Hwalk].
Defined.

Lemma normalizePath_fails_with_Getwd_witness :
  Getenv no_home_os "HOME" = "" /\
  exists q, normalizePath no_home_os "~/code" = Ok q.
Proof.
  split; [vm_compute; reflexivity|].
  destruct (normalizePath_fails_with_Getwd no_home_os "~/code") as (_ & _ & Hwd).
  apply (Hwd "/home/u"). vm_compute; reflexivity.
Defined.

(** ** The last element of a path is one of its fields *)

Lemma Split_not_nil s sep : strings.Split s sep <> [].
Proof.
  destruct s as [|c s]; simpl; [done|].
  destruct (Ascii.eqb c sep); [done|]. by destruct (strings.Split s sep).
Qed.

Lemma path_Split_last q :
  snd (path.Split q) = List.last (strings.Split q path.slash) "" /\
  (fst (path.Split q) = "" <-> length (strings.Split q path.slash) = 1%nat).
Proof.
  induction q as [|c q [IHlast IHone]]; [by split|].
  cbn [path.Split strings.Split].
  destruct (path.Split q) as [d f]. cbn [fst snd] in IHlast, IHone.
  pose proof (Split_not_nil q path.slash) as Hnil.
  destruct (strings.Split q path.slash) as [|h [|h2 tl]] eqn:Hq; [done| |].
  - assert (d = "") as -> by (by apply IHone).
    cbn in IHlast. subst f.
    destruct (Ascii.eqb c path.slash); cbn; split; try done;
      split; intros; discriminate.
  - destruct (String.eqb_spec d "") as [->|Hd].
    { exfalso. destruct IHone as [IHone _]. specialize (IHone eq_refl). discriminate. }
    destruct (Ascii.eqb c path.slash); cbn [fst snd]; (split; [exact IHlast|]);
      split; intros; discriminate.
Qed.

Lemma Split_cons c s sep :
  strings.Split (String c s) sep =
    if Ascii.eqb c sep then "" :: strings.Split s sep
    else match strings.Split s sep with
         | [] => [String c ""]
         | f :: fs => String c f :: fs
         end.
Proof. reflexivity. Qed.

Lemma strip_trailing_slashes_cons c p :
  path.strip_trailing_slashes (String c p) =
    if String.eqb (path.strip_trailing_slashes p) ""
    then (if Ascii.eqb c path.slash then "" else String c "")
    else String c (path.strip_trailing_slashes p).
Proof. simpl. by destruct (path.strip_trailing_slashes p). Qed.

Lemma strip_trailing_slashes_fields p :
  exists h tl tl',
    strings.Split p path.slash = h :: tl /\
    strings.Split (path.strip_trailing_slashes p) path.slash = h :: tl' /\
    incl tl' tl.
Proof.
  induction p as [|c p (h & tl & tl' & Hp & Hstrip & Hincl)].
  - exists "", [], []. split; [done|]. split; [done|]. apply incl_refl.
  - rewrite strip_trailing_slashes_cons, Split_cons, Hp.
    destruct (String.eqb_spec (path.strip_trailing_slashes p) "") as [He|Hne].
    + rewrite He in Hstrip. cbn in Hstrip. injection Hstrip as <- <-.
      destruct (Ascii.eqb c path.slash) eqn:Hc.
      * exists "", ("" :: tl), []. split; [done|]. split; [done|]. apply incl_nil_l.
      * exists (String c ""), tl, []. rewrite Split_cons, Hc.
        split; [done|]. split; [done|]. apply incl_nil_l.
    + rewrite Split_cons, Hstrip.
      destruct (Ascii.eqb c path.slash) eqn:Hc.
      * exists "", (h :: tl), (h :: tl').
        split; [done|]. split; [done|].
        intros x [<-|Hx]; [by left|right; by apply Hincl].
      * exists (String c h), tl, tl'. by split.
Qed.

Lemma Base_field p :
  p <> "" -> path.Base p = "/" \/ In (path.Base p) (strings.Split p path.slash).
Proof.
  intros Hp. unfold path.Base.
  destruct (String.eqb_spec p "") as [|_]; [done|].
  destruct (path_Split_last (path.strip_trailing_slashes p)) as [-> _].
  destruct (strip_trailing_slashes_fields p) as (h & tl & tl' & -> & -> & Hincl).
  destruct (String.eqb_spec (List.last (h :: tl') "") "") as [|Hne]; [by left|].
  right. destruct (exists_last (l := h :: tl')) as (l' & a & Hl); [done|].
  rewrite Hl, last_last.
  assert (In a (h :: tl')) as [<-|Hin] by (rewrite Hl; apply in_elt).
  - by left.
  - right. by apply Hincl.
Qed.

Lemma Base_not_empty p : path.Base p <> "".
Proof.
  unfold path.Base. destruct (String.eqb_spec p ""); [done|].
  by destruct (String.eqb_spec (snd (path.Split (path.strip_trailing_slashes p))) "").
Qed.

(** In the variant that sorts, a marker directly under a base directory
    gives the project the last element of the base directory as its
    name; the name is not empty, and it is not ["."] when the base
    directory is not empty and has no ["."] among its elements (as after
    [NormalizePaths], which cleans the patterns). *)
Lemma base_marker_name base home p project :
  match_project Part000 base true home p = Ok (Some project) ->
  strings.Contains p "/" = false ->
  Name project = path.Base base /\
  Name project <> "" /\
  (base <> "" -> ~ In "." (strings.Split base path.slash) -> Name project <> ".").
Proof.
  intros Hm Hslash.
  destruct (match_project_base_marker base home p project Hm Hslash) as [-> _].
  split; [done|]. split; [apply Base_not_empty|].
  intros Hbase Hdot Heq.
  destruct (Base_field base Hbase) as [Hroot|Hin]; [congruence|].
  by rewrite Heq in Hin.
Qed.

(** ** The fields of a cleaned path *)

Lemma Split_fields_whole s sep :
  Forall (fun f => strings.Split f sep = [f]) (strings.Split s sep).
Proof.
  induction s as [|c s IH]; [by repeat constructor|].
  rewrite Split_cons. destruct (Ascii.eqb c sep) eqn:Hc.
  - by constructor.
  - pose proof (Split_not_nil s sep) as Hnil.
    destruct (strings.Split s sep) as [|h tl]; [done|].
    apply Forall_cons in IH as [Hh Htl]. constructor; [|done].
    by rewrite Split_cons, Hc, Hh.
Qed.

Lemma Split_app_sep a b sep :
  strings.Split (a +:+ String sep b) sep = strings.Split a sep ++ strings.Split b sep.
Proof.
  induction a as [|c a IH].
  - change ("" +:+ String sep b) with (String sep b).
    by rewrite Split_cons, Ascii.eqb_refl.
  - change (String c a +:+ String sep b) with (String c (a +:+ String sep b)).
    rewrite !Split_cons, IH. destruct (Ascii.eqb c sep); [done|].
    pose proof (Split_not_nil a sep). by destruct (strings.Split a sep).
Qed.

Lemma Split_concat fs :
  fs <> [] ->
  Forall (fun f => strings.Split f path.slash = [f]) fs ->
  strings.Split (String.concat "/" fs) path.slash = fs.
Proof.
  induction fs as [|f fs IH]; [done|]. intros _ Hfs.
  apply Forall_cons in Hfs as [Hf Hfs].
  destruct fs as [|g fs]; [done|].
  change (String.concat "/" (f :: g :: fs))
    with (f +:+ String path.slash (String.concat "/" (g :: fs))).
  rewrite Split_app_sep, Hf, IH by done. done.
Qed.

Lemma clean_elements_in rooted es out x :
  In x (path.clean_elements rooted es out) -> In x es \/ In x out.
Proof.
  revert out. induction es as [|e es IH]; intros out; simpl.
  - rewrite <- in_rev. tauto.
  - destruct (String.eqb e "..").
    + destruct out as [|top out'].
      * destruct rooted; intros Hin; apply IH in Hin; simpl in Hin; tauto.
      * destruct (String.eqb top ".."); intros Hin; apply IH in Hin;
          simpl in *; tauto.
    + intros Hin. apply IH in Hin. simpl in Hin. tauto.
Qed.

Lemma elements_proper p f :
  In f (path.elements p) ->
  f <> "." /\ strings.Split f path.slash = [f].
Proof.
  unfold path.elements. intros Hin. apply List.filter_In in Hin as [Hin Hf].
  split.
  - intros ->. by rewrite orb_true_r in Hf.
  - pose proof (Split_fields_whole p path.slash) as Hall.
    eapply Forall_forall in Hall; [exact Hall|]. by apply list_elem_of_In.
Qed.

Lemma HasPrefix_slash s : strings.HasPrefix (String path.slash s) "/" = true.
Proof. unfold strings.HasPrefix. simpl. by destruct s. Qed.

Lemma Clean_rooted_fields p :
  strings.HasPrefix p "/" = true ->
  strings.HasPrefix (path.Clean p) "/" = true /\
  ~ In "." (strings.Split (path.Clean p) path.slash).
Proof.
  intros Hroot. unfold path.Clean.
  destruct (String.eqb_spec p "") as [->|_]; [discriminate Hroot|].
  rewrite Hroot. change ("/" +:+ ?x) with (String path.slash x).
  split; [apply HasPrefix_slash|].
  rewrite Split_cons, Ascii.eqb_refl.
  destruct (path.clean_elements true (path.elements p) []) as [|f fs] eqn:Hce.
  { simpl. intros [H|[H|[]]]; discriminate. }
  assert (forall x, In x (f :: fs) ->
            x <> "." /\ strings.Split x path.slash = [x]) as Hall.
  { intros x Hx. rewrite <- Hce in Hx.
    apply clean_elements_in in Hx as [Hx|[]]. by apply elements_proper in Hx. }
  rewrite Split_concat; [| done |].
  - intros [H|Hin]; [discriminate|]. by apply Hall in Hin as [? _].
  - apply Forall_forall. intros x Hx. apply list_elem_of_In in Hx.
    by apply Hall in Hx as [_ ?].
Qed.

(** ** The base directory of a normalized pattern *)

Lemma HasPrefix_slash_inv d :
  strings.HasPrefix d "/" = true -> exists d', d = String path.slash d'.
Proof.
  unfold strings.HasPrefix. intros H. apply String.prefix_correct in H.
  destruct d as [|c d]; [discriminate H|]. simpl in H. injection H as -> _. eauto.
Qed.

Lemma Join_rooted d x :
  strings.HasPrefix d "/" = true ->
  path.Join [d; x] = path.Clean (d +:+ "/" +:+ x) /\
  strings.HasPrefix (d +:+ "/" +:+ x) "/" = true.
Proof.
  intros Hd. apply HasPrefix_slash_inv in Hd as [d' ->].
  split; [reflexivity|apply HasPrefix_slash].
Qed.

Lemma normalizePath_cleaned os p q :
  (forall d, Getwd os = Ok d -> strings.HasPrefix d "/" = true) ->
  normalizePath os p = Ok q ->
  exists y, strings.HasPrefix y "/" = true /\ q = path.Clean y.
Proof.
  intros Hwd. rewrite normalizePath_Abs. unfold filepath.Abs.
  destruct (filepath.IsAbs (home_expanded os p)) eqn:Habs.
  - intros [= <-]. by exists (home_expanded os p).
  - destruct (Getwd os) as [d|e] eqn:Hd; [|done]. intros [= <-].
    destruct (Join_rooted d (home_expanded os p) (Hwd d eq_refl)) as [HJ Hroot].
    eexists. split; [exact Hroot|exact HJ].
Qed.

Lemma normalize_all_in os bases ps bp :
  normalize_all os bases = Ok ps -> In bp ps ->
  exists b, In b bases /\ normalizePath os b = Ok bp.
Proof.
  revert ps. induction bases as [|b bases IH]; intros ps; simpl.
  - by intros [= <-] [].
  - destruct (normalizePath os b) as [q|e] eqn:Hb; [|done].
    destruct (normalize_all os bases) as [qs|e]; [|done].
    intros [= <-] [<-|Hin]; [by exists b; auto|].
    destruct (IH qs eq_refl Hin) as (b' & Hb' & Hn). exists b'. auto.
Qed.

Lemma split_index_slash n p i idx k :
  (String.length p <= n)%nat ->
  doublestar.split_index p i idx = Some k ->
  idx = Some k \/
  exists a b, p = a +:+ String path.slash b /\ k = (i + String.length a)%nat.
Proof.
  revert p i idx. induction n as [|n IH]; intros p i idx Hlen.
  { destruct p; [|simpl in Hlen; lia]. simpl. auto. }
  destruct p as [|c p]; [simpl; auto|]. simpl in Hlen.
  cbn [doublestar.split_index].
  destruct (Ascii.eqb c "\") eqn:Hesc.
  { destruct p as [|c2 p]; [auto|]. simpl in Hlen. intros Hk.
    apply IH in Hk; [|lia]. destruct Hk as [Hk|(a & b & -> & ->)]; [auto|].
    right. exists (String c (String c2 a)), b. split; [done|]. simpl. lia. }
  destruct (Ascii.eqb_spec c "/") as [->|_].
  { intros Hk. apply IH in Hk; [|lia].
    destruct Hk as [[= <-]|(a & b & -> & ->)].
    - right. exists "", p. split; [done|]. simpl. lia.
    - right. exists (String "/" a), b. split; [done|]. simpl. lia. }
  destruct (doublestar.is_meta c); [auto|].
  intros Hk. apply IH in Hk; [|lia]. destruct Hk as [Hk|(a & b & -> & ->)]; [auto|].
  right. exists (String c a), b. split; [done|]. simpl. lia.
Qed.

Lemma split_index_found p i j : doublestar.split_index p i (Some j) <> None.
Proof.
  assert (forall n p i j, (String.length p <= n)%nat ->
            doublestar.split_index p i (Some j) <> None) as H.
  { clear. induction n as [|n IH]; intros p i j Hlen.
    { destruct p; [done|simpl in Hlen; lia]. }
    destruct p as [|c p]; [done|]. simpl in Hlen.
    cbn [doublestar.split_index].
    destruct (Ascii.eqb c "\").
    { destruct p as [|c2 p]; [done|]. simpl in Hlen. apply IH. lia. }
    destruct (Ascii.eqb c "/"); [apply IH; lia|].
    destruct (doublestar.is_meta c); [done|]. apply IH. lia. }
  by apply (H (String.length p)).
Qed.

Lemma upto_app a s : strings.upto (String.length a) (a +:+ s) = a.
Proof.
  unfold strings.upto. induction a as [|c a IH]; simpl.
  - by destruct s.
  - by rewrite IH.
Qed.

Lemma SplitPattern_rooted_base bp :
  strings.HasPrefix bp "/" = true ->
  ~ In "." (strings.Split bp path.slash) ->
  fst (doublestar.SplitPattern bp) <> "" /\
  ~ In "." (strings.Split (fst (doublestar.SplitPattern bp)) path.slash).
Proof.
  intros Hroot Hdot. unfold doublestar.SplitPattern.
  destruct (doublestar.split_index bp 0 None) as [[|j]|] eqn:Hidx.
  - split; [done|]. simpl. intros [H|[H|[]]]; discriminate.
  - apply (split_index_slash (String.length bp)) in Hidx; [|lia].
    destruct Hidx as [Hidx|(a & b & -> & Hj)]; [done|].
    simpl in Hj. rewrite Hj, upto_app. simpl. split.
    + destruct a; [discriminate Hj|done].
    + intros Hin. apply Hdot. rewrite Split_app_sep. apply in_or_app. by left.
  - exfalso. apply HasPrefix_slash_inv in Hroot as [bp' ->].
    simpl in Hidx. by apply split_index_found in Hidx.
Qed.

(** After [NormalizePaths], when the working directory (if it is asked
    for) is an absolute path, the base directory of every pattern is not
    empty and has no ["."] among its elements. *)
Lemma normalized_base_proper os cfg cfg' bp :
  (forall d, Getwd os = Ok d -> strings.HasPrefix d "/" = true) ->
  NormalizePaths os cfg = Ok cfg' ->
  In bp (ProjectBase cfg') ->
  fst (doublestar.SplitPattern bp) <> "" /\
  ~ In "." (strings.Split (fst (doublestar.SplitPattern bp)) path.slash).
Proof.
  intros Hwd Hnorm Hin. unfold NormalizePaths in Hnorm.
  destruct (normalize_all os (ProjectBase cfg)) as [ps|e] eqn:Hall; [|done].
  injection Hnorm as <-. simpl in Hin.
  destruct (normalize_all_in os _ _ bp Hall Hin) as (b & _ & Hb).
  destruct (normalizePath_cleaned os b bp Hwd Hb) as (y & Hy & ->).
  destruct (Clean_rooted_fields y Hy) as [Hroot Hdot].
  by apply SplitPattern_rooted_base.
Qed.

(** In the variant that sorts, in a run of [main] the name given to a
    project whose marker lies directly under the base directory is
    neither empty nor ["."]. *)
Lemma base_marker_name_after_normalize os cfg cfg' bp home p project :
  (forall d, Getwd os = Ok d -> strings.HasPrefix d "/" = true) ->
  NormalizePaths os cfg = Ok cfg' ->
  In bp (ProjectBase cfg') ->
  match_project Part000 (fst (doublestar.SplitPattern bp)) true home p
    = Ok (Some project) ->
  strings.Contains p "/" = false ->
  Name project = path.Base (fst (doublestar.SplitPattern bp)) /\
  Name project <> "" /\ Name project <> ".".
Proof.
  intros Hwd Hnorm Hin Hm Hslash.
  destruct (normalized_base_proper os cfg cfg' bp Hwd Hnorm Hin) as [Hne Hdot].
  destruct (base_marker_name _ home p project Hm Hslash) as (Hname & Hempty & Hd).
  auto.
Qed.

(** * More of the program *)

(** ** [NormalizePaths] and [normalizePath] *)

Lemma normalize_all_Forall2 os bases ps :
  normalize_all os bases = Ok ps <->
  Forall2 (fun b p => normalizePath os b = Ok p) bases ps.
Proof.
  revert ps. induction bases as [|b bases IH]; intros ps; simpl.
  - split; [intros [= <-]; constructor|]. intros H. by apply Forall2_nil_inv_l in H as ->.
  - split.
    + destruct (normalizePath os b) as [q|e] eqn:Hb; [|done].
      destruct (normalize_all os bases) as [qs|e] eqn:Hall; [|done].
      intros [= <-]. constructor; [done|]. by apply IH.
    + intros H. apply Forall2_cons_inv_l in H as (q & qs & Hq & Hqs & ->).
      rewrite Hq. apply IH in Hqs. by rewrite Hqs.
Qed.

Lemma normalize_all_Err os bases e :
  normalize_all os bases = Err e <->
  exists before b after,
    bases = before ++ b :: after /\
    Forall (fun b' => is_Err (normalizePath os b') = false) before /\
    normalizePath os b = Err e.
Proof.
  split.
  - induction bases as [|b bases IH]; simpl; [done|].
    destruct (normalizePath os b) as [q|e1] eqn:Hb.
    + destruct (normalize_all os bases) as [qs|e2]; [done|].
      intros [= ->]. destruct (IH eq_refl) as (before & b' & after & -> & Hok & Herr).
      exists (b :: before), b', after. split; [done|]. split; [|done].
      constructor; [by rewrite Hb|done].
    + intros [= ->]. exists [], b, bases. split; [done|]. split; [constructor|done].
  - intros (before & b & after & -> & Hok & Herr).
    induction Hok as [|b0 before Hb0 Hok IH]; simpl.
    + by rewrite Herr.
    + destruct (normalizePath os b0); [|done]. by rewrite IH.
Qed.

(** X1.  [NormalizePaths] normalizes the entries one by one and keeps
    their number and order: it succeeds exactly when [normalizePath]
    succeeds on every entry, with the results in the places of the
    entries, and it fails exactly with the error of the first entry on
    which [normalizePath] fails. *)
Theorem NormalizePaths_entrywise os cfg :
  (forall cfg', NormalizePaths os cfg = Ok cfg' <->
     Forall2 (fun b p => normalizePath os b = Ok p)
             (ProjectBase cfg) (ProjectBase cfg')) /\
  (forall e, NormalizePaths os cfg = Err e <->
     exists before b after,
       ProjectBase cfg = before ++ b :: after /\
       Forall (fun b' => is_Err (normalizePath os b') = false) before /\
       normalizePath os b = Err e).
Proof.
  unfold NormalizePaths. split.
  - intros [ps]. simpl. rewrite <- normalize_all_Forall2.
    destruct (normalize_all os (ProjectBase cfg)); split; congruence.
  - intros e. rewrite <- normalize_all_Err.
    destruct (normalize_all os (ProjectBase cfg)); split; congruence.
Qed.

Lemma clean_elements_rooted_no_dotdot es out x :
  Forall (fun e => e <> "..") out ->
  In x (path.clean_elements true es out) -> x <> "..".
Proof.
  revert out. induction es as [|e es IH]; intros out Hout; simpl.
  - rewrite <- in_rev. intros Hin. apply list_elem_of_In in Hin.
    revert x Hin. by apply Forall_forall.
  - destruct (String.eqb_spec e "..") as [->|He].
    + destruct out as [|top out']; [by apply IH|].
      apply Forall_cons in Hout as [Htop Hout].
      destruct (String.eqb_spec top ".."); [done|]. by apply IH.
    + apply IH. by constructor.
Qed.

Lemma elements_not_empty p f : In f (path.elements p) -> f <> "".
Proof.
  unfold path.elements. intros Hin. apply List.filter_In in Hin as [_ Hf].
  by intros ->.
Qed.

Lemma Clean_rooted_shape y :
  strings.HasPrefix y "/" = true ->
  exists es, strings.Split (path.Clean y) path.slash = "" :: es /\
             (es = [""] \/ Forall proper_element es).
Proof.
  intros Hroot. unfold path.Clean.
  destruct (String.eqb_spec y "") as [->|_]; [discriminate Hroot|].
  rewrite Hroot. change ("/" +:+ ?x) with (String path.slash x).
  rewrite Split_cons, Ascii.eqb_refl.
  destruct (path.clean_elements true (path.elements y) []) as [|f fs] eqn:Hce.
  { exists [""]. by split; [|left]. }
  assert (forall x, In x (f :: fs) ->
            proper_element x /\ strings.Split x path.slash = [x]) as Hall.
  { intros x Hx. rewrite <- Hce in Hx.
    pose proof (clean_elements_rooted_no_dotdot _ [] x (List.Forall_nil _) Hx) as Hdd.
    apply clean_elements_in in Hx as [Hx|[]].
    pose proof (elements_not_empty _ _ Hx).
    apply elements_proper in Hx as [? ?]. by repeat split. }
  exists (f :: fs). rewrite Split_concat; [|done|].
  - split; [done|]. right. apply Forall_forall. intros x Hx.
    apply list_elem_of_In in Hx. by apply Hall in Hx as [? _].
  - apply Forall_forall. intros x Hx. apply list_elem_of_In in Hx.
    by apply Hall in Hx as [_ ?].
Qed.

(** X2.  When the working directory, if it is asked for, is an absolute
    path, what [normalizePath] returns is a cleaned absolute path: it
    starts with a slash, and it is [/] or its elements between the
    slashes are neither empty nor [.] nor [..]. *)
Theorem normalizePath_cleaned_absolute os p q :
  (forall d, Getwd os = Ok d -> strings.HasPrefix d "/" = true) ->
  normalizePath os p = Ok q ->
  strings.HasPrefix q "/" = true /\
  exists es, strings.Split q path.slash = "" :: es /\
             (es = [""] \/ Forall proper_element es).
Proof.
  intros Hwd Hq.
  destruct (normalizePath_cleaned os p q Hwd Hq) as (y & Hy & ->).
  split; [by apply Clean_rooted_fields|by apply Clean_rooted_shape].
Qed.

Lemma normalizePath_cleaned_absolute_witness :
  normalizePath home_os "~/code/../src//x/." = Ok "/home/u/src/x" /\
  strings.HasPrefix "/home/u/src/x" "/" = true /\
  exists es, strings.Split "/home/u/src/x" path.slash = "" :: es /\
             (es = [""] \/ Forall proper_element es).
Proof.
  split; [vm_compute; reflexivity|].
  apply (normalizePath_cleaned_absolute home_os "~/code/../src//x/.").
  - intros d Hd. vm_compute in Hd. injection Hd as <-. vm_compute. reflexivity.
  - vm_compute. reflexivity.
Defined.

(** X3.  [main] hands [loadConfig] a normalized path, which is never
    empty and never [-]: the branch of [loadConfig] that returns an
    empty configuration without opening a file is not taken, also for
    [--config -], and when the file cannot be read [main] prints the
    error and exits with status 1 before anything else. *)
Theorem main_reads_config_file fuel v os cfgPath :
  (forall d, Getwd os = Ok d -> strings.HasPrefix d "/" = true) ->
  normalizePath os (flag_config os) = Ok cfgPath ->
  loadConfig os cfgPath = read_config os cfgPath /\
  forall e, read_config os cfgPath = Err e ->
            main fuel v os = Some ([println_error e], 1%nat).
Proof.
  intros Hwd Hpath.
  destruct (normalizePath_cleaned os _ _ Hwd Hpath) as (y & Hy & Hclean).
  assert (strings.HasPrefix cfgPath "/" = true) as Hroot
    by (rewrite Hclean; by apply Clean_rooted_fields).
  apply HasPrefix_slash_inv in Hroot as [rest Hrest].
  assert (loadConfig os cfgPath = read_config os cfgPath) as Hload
    by (by rewrite Hrest).
  split; [exact Hload|].
  intros e He. unfold main. by rewrite Hpath, Hload, He.
Qed.

Lemma main_reads_config_file_witness :
  flag_config no_config_os = "-" /\
  main 0 Part000 no_config_os =
    Some ([println_error "open /home/u/-: no such file or directory"], 1%nat).
Proof.
  split; [reflexivity|].
  destruct (main_reads_config_file 0 Part000 no_config_os "/home/u/-") as [_ Hmain].
  - intros d Hd. vm_compute in Hd. injection Hd as <-. vm_compute. reflexivity.
  - vm_compute. reflexivity.
  - apply Hmain. vm_compute. reflexivity.
Defined.

(** ** What [findProjectDirectories] returns *)

Lemma fold_store_lookup_Some projects ret k q :
  fold_left store projects ret !! k = Some q ->
  (ret !! k = Some q /\ Forall (fun q' => FullPath q' <> k) projects) \/
  exists earlier later,
    projects = earlier ++ q :: later /\ FullPath q = k /\
    Forall (fun q' => FullPath q' <> k) later.
Proof.
  revert ret. induction projects as [|x l IH]; intros ret Hk; simpl in Hk.
  - left. by split.
  - apply IH in Hk as [[Hk Hl]|(earlier & later & -> & Hq & Hlater)].
    + unfold store in Hk. rewrite lookup_insert in Hk. case_decide as Hx.
      * injection Hk as ->. right. exists [], l. by repeat split.
      * left. split; [done|]. by constructor.
    + right. exists (x :: earlier), later. by repeat split.
Qed.

Lemma result_lookup v os cfg t q :
  range_is_permutation os ->
  In q (fst (snd (findProjectDirectories v os cfg t))) <->
  fold_left store (discovered v os cfg) ∅ !! FullPath q = Some q.
Proof.
  intros Hrange. split; [|by apply stored_in_result].
  intros Hin.
  apply (Permutation_in _ (findProjectDirectories_perm v os cfg t Hrange)) in Hin.
  apply in_map_iff in Hin as ([k q'] & Hq & Hin). simpl in Hq. subst q'.
  apply list_elem_of_In, elem_of_map_to_list in Hin.
  assert (FullPath q = k) as <-; [|done].
  by apply (keyed_fold (discovered v os cfg) ∅ keyed_empty k q).
Qed.

(** X4.  Under a full path the project stored last is the one returned:
    a project is in the list returned by [findProjectDirectories]
    exactly when a walk has stored it and no project stored after it
    has the same full path.  So every project returned comes from a
    match, and of several matches with one full path the last one
    gives the name. *)
Theorem findProjectDirectories_last_stored v os cfg t q :
  range_is_permutation os ->
  In q (fst (snd (findProjectDirectories v os cfg t))) <->
  exists earlier later,
    discovered v os cfg = earlier ++ q :: later /\
    Forall (fun q' => FullPath q' <> FullPath q) later.
Proof.
  intros Hrange. rewrite result_lookup by done. split.
  - intros Hk. apply fold_store_lookup_Some in Hk
      as [[Hk _]|(earlier & later & Heq & _ & Hlater)].
    + by rewrite lookup_empty in Hk.
    + by exists earlier, later.
  - intros (earlier & later & -> & Hlater). by apply fold_store_last.
Qed.

Lemma findProjectDirectories_last_stored_witness :
  let named := mkProject "code/project-a" "/home/u/code/project-a" "code/project-a" in
  let first := mkProject "project-a" "/home/u/code/project-a" "code/project-a" in
  let res := fst (snd (findProjectDirectories Part000 home_os sample_config [])) in
  In first (discovered Part000 home_os sample_config) /\
  (In named res <->
   exists earlier later,
     discovered Part000 home_os sample_config = earlier ++ named :: later /\
     Forall (fun q' => FullPath q' <> FullPath named) later) /\
  In named res /\ ~ In first res.
Proof.
  split; [vm_compute; tauto|]. split.
  - apply (findProjectDirectories_last_stored Part000 home_os sample_config []).
    apply sample_range_is_permutation.
  - vm_compute. split; [tauto|]. intros H; decompose [or] H; congruence.
Defined.

Lemma result_paths_iff v os cfg t k :
  range_is_permutation os ->
  In k (List.map FullPath (fst (snd (findProjectDirectories v os cfg t)))) <->
  In k (List.map FullPath (discovered v os cfg)).
Proof.
  intros Hrange. split.
  - intros Hin.
    apply (Permutation_in _ (findProjectDirectories_paths v os cfg t Hrange)) in Hin.
    apply in_map_iff in Hin as ([k' q] & Hk & Hin). simpl in Hk. subst k'.
    apply list_elem_of_In, elem_of_map_to_list in Hin.
    assert (is_Some (fold_left store (discovered v os cfg) ∅ !! k)) as Hsome by eauto.
    apply fold_store_lookup in Hsome as [Hsome|Hin']; [|done].
    rewrite lookup_empty in Hsome. by destruct Hsome.
  - intros Hin. apply in_map_iff in Hin as (q & <- & Hq).
    by apply discovered_in_result.
Qed.

(** X5.  The list returned by [findProjectDirectories] has as many
    projects as there are distinct full paths among the projects stored
    during the walks. *)
Theorem findProjectDirectories_length v os cfg t :
  range_is_permutation os ->
  length (fst (snd (findProjectDirectories v os cfg t))) =
  length (nodup string_dec (List.map FullPath (discovered v os cfg))).
Proof.
  intros Hrange.
  rewrite <- (length_map FullPath (fst (snd (findProjectDirectories v os cfg t)))).
  apply Permutation_length, Permutation.NoDup_Permutation.
  - apply (Permutation_NoDup
             (Permutation_sym (findProjectDirectories_paths v os cfg t Hrange))).
    apply NoDup_ListNoDup, NoDup_fst_map_to_list.
  - apply List.NoDup_nodup.
  - intros k. rewrite nodup_In. by apply result_paths_iff.
Qed.

Lemma findProjectDirectories_length_witness :
  length (discovered Part000 home_os sample_config) = 6%nat /\
  length (fst (snd (findProjectDirectories Part000 home_os sample_config []))) = 4%nat /\
  length (nodup string_dec
            (List.map FullPath (discovered Part000 home_os sample_config))) = 4%nat.
Proof.
  split; [vm_compute; reflexivity|].
  pose proof (findProjectDirectories_length Part000 home_os sample_config []
                (sample_range_is_permutation _ _ _)) as Hlen.
  split; [rewrite Hlen|]; vm_compute; reflexivity.
Defined.

(** ** Where a returned project comes from *)

Lemma walk_projects_in v base used home matches q :
  In q (walk_projects v base used home matches) ->
  exists p, In p matches /\ match_project v base used home p = Ok (Some q).
Proof.
  induction matches as [|p ms IH]; simpl; [done|].
  destruct (match_project v base used home p) as [[q'|]|e] eqn:Hp; [| |done].
  - intros [->|Hin]; [by exists p; auto|].
    destruct (IH Hin) as (p' & Hp' & Hq). exists p'. auto.
  - intros Hin. destruct (IH Hin) as (p' & Hp' & Hq). exists p'. auto.
Qed.

Lemma discovered_in v os cfg q :
  In q (discovered v os cfg) ->
  exists bp p,
    In bp (ProjectBase cfg) /\
    In p (fst (glob_walk os (fst (doublestar.SplitPattern bp))
                            (snd (doublestar.SplitPattern bp)))) /\
    match_project v (fst (doublestar.SplitPattern bp))
      (regexp.glob_meta_found (path.Base (snd (doublestar.SplitPattern bp))))
      (fst (UserHomeDir os)) p = Ok (Some q).
Proof.
  unfold discovered. intros Hin. apply in_flat_map in Hin as (bp & Hbp & Hin).
  unfold base_projects in Hin.
  destruct (doublestar.SplitPattern bp) as [base pattern] eqn:Hsplit.
  apply walk_projects_in in Hin as (p & Hp & Hq). exists bp, p.
  rewrite Hsplit. auto.
Qed.

Lemma match_project_consistent v base used home p q :
  match_project v base used home p = Ok (Some q) ->
  FullPath q = path.Join [base; Name q] /\
  filepath.Rel home (FullPath q) = Ok (HomePath q).
Proof.
  unfold match_project. destruct v.
  - destruct used; [|done].
    destruct (filepath.Rel home (path.Join [base; path.Dir p])) eqn:Hrel; [|done].
    by intros [= <-].
  - cbv zeta.
    destruct (filepath.Rel home _) eqn:Hrel; [|done]. by intros [= <-].
Qed.

Lemma result_discovered v os cfg t q :
  range_is_permutation os ->
  In q (fst (snd (findProjectDirectories v os cfg t))) ->
  In q (discovered v os cfg).
Proof.
  intros Hrange Hin. apply result_lookup in Hin; [|done].
  apply fold_store_lookup_Some in Hin
    as [[Hk _]|(earlier & later & -> & _ & _)].
  - by rewrite lookup_empty in Hk.
  - apply in_elt.
Qed.

(** X6.  Every project returned by [findProjectDirectories] belongs to
    a base pattern of the configuration and a match of its walk, and its
    fields agree: the full path is the join of the base directory of
    that pattern and the name of the project, and the home path is the
    full path made relative to the home directory by [filepath.Rel]. *)
Theorem findProjectDirectories_project_consistent v os cfg t q :
  range_is_permutation os ->
  In q (fst (snd (findProjectDirectories v os cfg t))) ->
  (exists bp, In bp (ProjectBase cfg) /\
     FullPath q = path.Join [fst (doublestar.SplitPattern bp); Name q]) /\
  filepath.Rel (fst (UserHomeDir os)) (FullPath q) = Ok (HomePath q).
Proof.
  intros Hrange Hin. apply result_discovered in Hin; [|done].
  apply discovered_in in Hin as (bp & p & Hbp & _ & Hq).
  apply match_project_consistent in Hq as [Hfull Hhome].
  split; [by exists bp|done].
Qed.

Lemma findProjectDirectories_project_consistent_witness :
  let q := mkProject "code/project-a" "/home/u/code/project-a" "code/project-a" in
  (exists bp, In bp (ProjectBase sample_config) /\
     FullPath q = path.Join [fst (doublestar.SplitPattern bp); Name q]) /\
  filepath.Rel (fst (UserHomeDir home_os)) (FullPath q) = Ok (HomePath q).
Proof.
  apply (findProjectDirectories_project_consistent Part000 home_os sample_config []).
  - apply sample_range_is_permutation.
  - vm_compute. tauto.
Defined.

Lemma walk_projects_none v base used home matches :
  (forall p q, In p matches -> match_project v base used home p <> Ok (Some q)) ->
  walk_projects v base used home matches = [].
Proof.
  induction matches as [|p ms IH]; intros Hnone; simpl; [done|].
  destruct (match_project v base used home p) as [[q|]|e] eqn:Hp; [|apply IH|done].
  - exfalso. apply (Hnone p q); [by left|done].
  - intros p' q' Hin. apply Hnone. by right.
Qed.

Lemma nothing_discovered_nothing_returned v os cfg t :
  range_is_permutation os ->
  discovered v os cfg = [] ->
  fst (snd (findProjectDirectories v os cfg t)) = [].
Proof.
  intros Hrange Hnone.
  pose proof (findProjectDirectories_perm v os cfg t Hrange) as Hperm.
  rewrite Hnone in Hperm. simpl in Hperm. rewrite map_to_list_empty in Hperm.
  simpl in Hperm. symmetry in Hperm. by apply Permutation_nil in Hperm.
Qed.

(** X7.  In main.go a configuration whose base patterns all end in a
    segment without glob metacharacters finds nothing, whatever the file
    system holds: the function given to the walk stores a project only
    under [patternUsed]. *)
Theorem main_go_literal_patterns_find_nothing os cfg t :
  range_is_permutation os ->
  Forall (fun bp => regexp.glob_meta_found
                      (path.Base (snd (doublestar.SplitPattern bp))) = false)
         (ProjectBase cfg) ->
  fst (snd (findProjectDirectories MainGo os cfg t)) = [].
Proof.
  intros Hrange Hlit. apply nothing_discovered_nothing_returned; [done|].
  unfold discovered. induction Hlit as [|bp bps Hbp Hbps IH]; simpl; [done|].
  rewrite IH, app_nil_r. unfold base_projects.
  destruct (doublestar.SplitPattern bp) as [base pattern]. simpl in Hbp.
  rewrite Hbp. by apply walk_projects_none.
Qed.

Lemma main_go_literal_patterns_find_nothing_witness :
  fst (glob_walk home_os "/home/u" "code") = ["code"] /\
  fst (snd (findProjectDirectories MainGo home_os
              (mkConfig ["/home/u/code"; "/home/u/code/project-a/.git"]) [])) = [].
Proof.
  split; [vm_compute; reflexivity|].
  apply main_go_literal_patterns_find_nothing.
  - apply sample_range_is_permutation.
  - repeat constructor.
Defined.

(** ** Without a home directory *)

Lemma Rel_from_nowhere targ :
  strings.HasPrefix targ "/" = true -> is_Err (filepath.Rel "" targ) = true.
Proof.
  intros Hroot. destruct (Clean_rooted_fields targ Hroot) as [Hclean _].
  unfold filepath.Rel, filepath.Clean.
  change (path.Clean "") with ".".
  apply HasPrefix_slash_inv in Hclean as [rest Hrest]. rewrite Hrest.
  change (String.eqb (String path.slash rest) ".") with false.
  cbv iota. change (String.eqb "." ".") with true. cbv iota.
  by rewrite HasPrefix_slash.
Qed.

Lemma SplitPattern_rooted bp :
  strings.HasPrefix bp "/" = true ->
  strings.HasPrefix (fst (doublestar.SplitPattern bp)) "/" = true.
Proof.
  intros Hroot. unfold doublestar.SplitPattern.
  destruct (doublestar.split_index bp 0 None) as [[|j]|] eqn:Hidx.
  - reflexivity.
  - apply (split_index_slash (String.length bp)) in Hidx; [|lia].
    destruct Hidx as [Hidx|(a & b & -> & Hj)]; [done|].
    simpl in Hj. rewrite Hj, upto_app. simpl.
    destruct a as [|c a]; [discriminate Hj|].
    apply HasPrefix_slash_inv in Hroot as [rest Hrest].
    injection Hrest as -> _. apply HasPrefix_slash.
  - exfalso. apply HasPrefix_slash_inv in Hroot as [bp' ->].
    simpl in Hidx. by apply split_index_found in Hidx.
Qed.

Lemma match_project_without_home v base used p q :
  strings.HasPrefix base "/" = true ->
  match_project v base used "" p <> Ok (Some q).
Proof.
  intros Hbase Hq. apply match_project_consistent in Hq as [Hfull Hrel].
  destruct (Join_rooted base (Name q) Hbase) as [HJ Hroot].
  assert (strings.HasPrefix (FullPath q) "/" = true) as Hfp.
  { rewrite Hfull, HJ. by apply Clean_rooted_fields. }
  apply Rel_from_nowhere in Hfp. by rewrite Hrel in Hfp.
Qed.

(** X8.  With [HOME] not set [findProjectDirectories] finds nothing in a
    normalized configuration, whatever the walks match: the error of
    [os.UserHomeDir] is dropped, the home directory is then the empty
    string, no absolute full path can be made relative to it, and the
    function given to the walk returns that error at the first match. *)
Theorem no_home_no_projects v os cfg cfg' t :
  range_is_permutation os ->
  Getenv os "HOME" = "" ->
  (forall d, Getwd os = Ok d -> strings.HasPrefix d "/" = true) ->
  NormalizePaths os cfg = Ok cfg' ->
  fst (snd (findProjectDirectories v os cfg' t)) = [].
Proof.
  intros Hrange Hhome Hwd Hnorm.
  apply nothing_discovered_nothing_returned; [done|].
  assert (forall bp, In bp (ProjectBase cfg') -> base_projects v os bp = []) as Hnone.
  { intros bp Hbp. unfold NormalizePaths in Hnorm.
    destruct (normalize_all os (ProjectBase cfg)) as [ps|e] eqn:Hall; [|done].
    injection Hnorm as <-. simpl in Hbp.
    destruct (normalize_all_in os _ _ bp Hall Hbp) as (b & _ & Hb).
    destruct (normalizePath_cleaned os b bp Hwd Hb) as (y & Hy & ->).
    pose proof (SplitPattern_rooted _ (proj1 (Clean_rooted_fields y Hy))) as Hbase.
    unfold base_projects, UserHomeDir.
    destruct (doublestar.SplitPattern (path.Clean y)) as [base pattern].
    rewrite Hhome. simpl. apply walk_projects_none.
    intros p q _. by apply match_project_without_home. }
  unfold discovered. induction (ProjectBase cfg') as [|bp bps IH]; simpl; [done|].
  rewrite Hnone by (by left). simpl. apply IH. intros bp' Hbp'. apply Hnone. by right.
Qed.

Lemma no_home_no_projects_witness :
  fst (glob_walk no_home_os "/home/u/code" "**/{.git}")
    = ["project-a/.git"; "group/project-b/.git"] /\
  fst (snd (findProjectDirectories Part000 no_home_os
              (mkConfig ["/home/u/code/**/{.git}"]) [])) = [].
Proof.
  split; [vm_compute; reflexivity|].
  apply (no_home_no_projects Part000 no_home_os (mkConfig ["/home/u/code/**/{.git}"])).
  - apply sample_range_is_permutation.
  - vm_compute. reflexivity.
  - intros d Hd. vm_compute in Hd. injection Hd as <-. vm_compute. reflexivity.
  - vm_compute. reflexivity.
Defined.

(** ** Which patterns count as marker patterns *)

Lemma prefix_slash_cons c s :
  String.prefix "/" (String c s) = Ascii.eqb c path.slash.
Proof.
  destruct (Ascii.eqb_spec c path.slash) as [->|Hc]; [apply HasPrefix_slash|].
  destruct (String.prefix "/" (String c s)) eqn:Hp; [|done].
  apply HasPrefix_slash_inv in Hp as [d Hd]. by injection Hd as -> _.
Qed.

Lemma Contains_slash_Split s :
  strings.Contains s "/" = false -> strings.Split s path.slash = [s].
Proof.
  induction s as [|c s IH]; [done|].
  cbn [strings.Contains]. rewrite prefix_slash_cons, Split_cons.
  destruct (Ascii.eqb c path.slash); [done|]. intros Hs. by rewrite IH.
Qed.

Lemma strip_trailing_slashes_plain s :
  s <> "" -> strings.Split s path.slash = [s] ->
  path.strip_trailing_slashes s = s.
Proof.
  induction s as [|c s IH]; [done|]. intros _.
  rewrite Split_cons, strip_trailing_slashes_cons.
  destruct (Ascii.eqb c path.slash); [done|].
  pose proof (Split_not_nil s path.slash) as Hnil.
  destruct (strings.Split s path.slash) as [|h tl] eqn:Hs; [done|].
  intros [= -> ->]. destruct s as [|c' s]; [done|].
  rewrite IH by done. reflexivity.
Qed.

Lemma strip_trailing_slashes_app x s :
  s <> "" -> path.strip_trailing_slashes s = s ->
  path.strip_trailing_slashes (x +:+ s) = x +:+ s.
Proof.
  intros Hs Hstrip. induction x as [|c x IH]; [done|].
  change (String c x +:+ s) with (String c (x +:+ s)).
  rewrite strip_trailing_slashes_cons, IH.
  destruct (String.eqb_spec (x +:+ s) "") as [He|_]; [|done].
  destruct x; [by destruct s|discriminate He].
Qed.

Lemma Base_last_segment pre last :
  last <> "" -> strings.Contains last "/" = false ->
  path.Base (pre +:+ "/" +:+ last) = last.
Proof.
  intros Hne Hplain. apply Contains_slash_Split in Hplain.
  unfold path.Base.
  destruct (String.eqb_spec (pre +:+ "/" +:+ last) "") as [He|_].
  { destruct pre; discriminate He. }
  change (pre +:+ "/" +:+ last) with (pre +:+ String path.slash last).
  assert (path.strip_trailing_slashes (pre +:+ String path.slash last)
          = pre +:+ String path.slash last) as ->.
  { change (String path.slash last) with ("/" +:+ last).
    assert (path.strip_trailing_slashes ("/" +:+ last) = "/" +:+ last) as H.
    { apply (strip_trailing_slashes_app "/"); [done|].
      by apply strip_trailing_slashes_plain. }
    apply strip_trailing_slashes_app; [done|exact H]. }
  destruct (path_Split_last (pre +:+ String path.slash last)) as [-> _].
  rewrite Split_app_sep, Hplain, last_last.
  by destruct (String.eqb_spec last "").
Qed.

(** X9.  Whether a base pattern counts as a marker pattern is decided by
    its last segment alone: wildcards in the segments before it do not
    count.  For a pattern that ends in a plain segment (as [*/.git]), the
    variant that sorts takes every match itself as the project, under
    the matched path as its name, and main.go stores nothing. *)
Theorem plain_last_segment_is_literal os bp base pre last :
  doublestar.SplitPattern bp = (base, pre +:+ "/" +:+ last) ->
  last <> "" -> strings.Contains last "/" = false ->
  regexp.glob_meta_found last = false ->
  regexp.glob_meta_found (path.Base (pre +:+ "/" +:+ last)) = false /\
  base_projects MainGo os bp = [] /\
  forall q, In q (base_projects Part000 os bp) ->
    exists p, In p (fst (glob_walk os base (pre +:+ "/" +:+ last))) /\
              Name q = p /\ FullPath q = path.Join [base; p].
Proof.
  intros Hsplit Hne Hplain Hmeta.
  assert (regexp.glob_meta_found (path.Base (pre +:+ "/" +:+ last)) = false) as Hused
    by (by rewrite Base_last_segment).
  split; [exact Hused|]. unfold base_projects. rewrite Hsplit, Hused. split.
  - by apply walk_projects_none.
  - intros q Hq. apply walk_projects_in in Hq as (p & Hp & Hq). exists p.
    split; [done|]. unfold match_project in Hq. cbv zeta in Hq.
    destruct (filepath.Rel _ _); [|done]. by injection Hq as <-.
Qed.

Lemma plain_last_segment_is_literal_witness :
  base_projects MainGo marker_os "/home/u/code/*/.git" = [] /\
  base_projects Part000 marker_os "/home/u/code/*/.git" =
    [mkProject "project-a/.git" "/home/u/code/project-a/.git" "code/project-a/.git"].
Proof.
  destruct (plain_last_segment_is_literal marker_os "/home/u/code/*/.git"
              "/home/u/code" "*" ".git") as (_ & Hmain & _);
    [vm_compute; reflexivity|done|vm_compute; reflexivity|vm_compute; reflexivity|].
  split; [exact Hmain|vm_compute; reflexivity].
Defined.

(** ** Names and full paths are not empty *)

Lemma Clean_not_empty p : path.Clean p <> "".
Proof.
  unfold path.Clean. destruct (String.eqb_spec p ""); [done|].
  destruct (strings.HasPrefix p "/"); [done|].
  by destruct (String.eqb_spec
                 (String.concat "/" (path.clean_elements false (path.elements p) [])) "").
Qed.

Lemma Join_not_empty base name : name <> "" -> path.Join [base; name] <> "".
Proof.
  intros Hname. unfold path.Join. cbn [path.join_buf].
  change (String.eqb "" "") with true. cbv iota.
  destruct (String.eqb_spec base "") as [->|Hbase]; cbn [path.join_buf].
  - destruct (String.eqb_spec name ""); [done|apply Clean_not_empty].
  - destruct (String.eqb_spec (base +:+ "/" +:+ name) "") as [He|_];
      [|apply Clean_not_empty].
    destruct base; [done|discriminate He].
Qed.

Lemma match_project_not_empty v base used home p q :
  p <> "" ->
  match_project v base used home p = Ok (Some q) ->
  Name q <> "" /\ FullPath q <> "".
Proof.
  intros Hp Hq.
  assert (Name q <> "") as Hname.
  { unfold match_project in Hq. destruct v.
    - destruct used; [|done]. destruct (filepath.Rel _ _); [|done].
      injection Hq as <-. apply Clean_not_empty.
    - cbv zeta in Hq. destruct (filepath.Rel _ _); [|done]. injection Hq as <-.
      simpl. destruct used; [|done].
      destruct (negb _); [apply Base_not_empty|apply Clean_not_empty]. }
  split; [done|]. apply match_project_consistent in Hq as [-> _].
  by apply Join_not_empty.
Qed.

(** X10.  When no walk yields an empty path, no project returned by
    [findProjectDirectories] has an empty name or an empty full path:
    the name is the match, its directory cleaned, or the last element
    of the base directory, and none of these is empty. *)
Theorem findProjectDirectories_names_not_empty v os cfg t q :
  range_is_permutation os ->
  (forall bp, In bp (ProjectBase cfg) ->
     ~ In "" (fst (glob_walk os (fst (doublestar.SplitPattern bp))
                                (snd (doublestar.SplitPattern bp))))) ->
  In q (fst (snd (findProjectDirectories v os cfg t))) ->
  Name q <> "" /\ FullPath q <> "".
Proof.
  intros Hrange Hwalk Hin. apply result_discovered in Hin; [|done].
  apply discovered_in in Hin as (bp & p & Hbp & Hp & Hq).
  eapply match_project_not_empty; [|exact Hq].
  intros ->. by apply (Hwalk bp).
Qed.

Lemma findProjectDirectories_names_not_empty_witness :
  let q := mkProject "." "/home/u" "." in
  In q (fst (snd (findProjectDirectories MainGo home_os
                    (mkConfig ["/home/u/**/{.git}"]) []))) /\
  Name q <> "" /\ FullPath q <> "".
Proof.
  split; [vm_compute; tauto|].
  apply (findProjectDirectories_names_not_empty MainGo home_os
           (mkConfig ["/home/u/**/{.git}"]) []).
  - apply sample_range_is_permutation.
  - intros bp [<-|[]]. vm_compute. intros H; decompose [or] H; congruence.
  - vm_compute. tauto.
Defined.

(** ** The commands of the session orchestrator *)

Lemma issued_new_session_joined v project :
  joined [Exec (new_session_argv v project)] = 0%nat.
Proof. destruct v; vm_compute; reflexivity. Qed.

Lemma joined_app t1 t2 : joined (t1 ++ t2) = (joined t1 + joined t2)%nat.
Proof. unfold joined. rewrite !issued_app. lia. Qed.

Lemma joined_check_events v os t : joined (check_events v os t) = 0%nat.
Proof.
  unfold joined. destruct (issued_check_events v os t) as (_ & _ & -> & ->). done.
Qed.

Lemma joined_join_events v os project t :
  joined (fst (join_events v os project t)) =
    match v with MainGo => 0%nat | Part000 => 1%nat end.
Proof.
  unfold join_events.
  destruct v, (negb (String.eqb (Getenv os "TMUX") "")); reflexivity.
Qed.

Lemma orchestrator_event_list v project :
  orchestrator_event v project (Exec list_sessions) = true.
Proof. unfold orchestrator_event. by rewrite bool_decide_eq_true_2. Qed.

Lemma orchestrator_event_create v project :
  orchestrator_event v project (Exec (new_session_argv v project)) = true.
Proof.
  unfold orchestrator_event.
  rewrite (bool_decide_eq_true_2
             (new_session_argv v project = new_session_argv v project)) by done.
  by rewrite orb_true_r.
Qed.

Lemma orchestrator_event_reset project :
  orchestrator_event MainGo project (Exec ["reset"]) = true.
Proof.
  unfold orchestrator_event.
  rewrite (bool_decide_eq_true_2 (["reset"] = ["reset"])) by done.
  by rewrite !orb_true_r.
Qed.

Lemma orchestrator_event_check v os project t :
  forallb (orchestrator_event v project) (check_events v os t) = true.
Proof.
  unfold check_events. destruct v; cbn [app forallb];
    rewrite orchestrator_event_list; [|done].
  by rewrite orchestrator_event_reset.
Qed.

Lemma orchestrator_event_join v os project t :
  forallb (orchestrator_event v project) (fst (join_events v os project t)) = true.
Proof.
  unfold join_events.
  destruct v, (negb (String.eqb (Getenv os "TMUX") "")); cbn [fst forallb];
    try done; unfold orchestrator_event.
  - rewrite (bool_decide_eq_true_2
               (["tmux"; "switch-client"; "-t"; Name project] =
                ["tmux"; "switch-client"; "-t"; Name project])) by done.
    by rewrite !orb_true_r.
  - rewrite (bool_decide_eq_true_2
               (["tmux"; "attach-session"; "-t"; Name project] =
                ["tmux"; "attach-session"; "-t"; Name project])) by done.
    by rewrite !orb_true_r.
Qed.

Lemma listing_not_usable r :
  listing_usable r = false ->
  exists e, snd r = Some e /\ strings.Contains (fst r) "no server running" = false.
Proof.
  unfold listing_usable. destruct r as [output [e|]]; simpl; [eauto|done].
Qed.

(** What every return of [startOrAttachToTmux] has added to the trace. *)
Lemma startOrAttachToTmux_added fuel v os project t t' r :
  startOrAttachToTmux fuel v os project t = Some (t', r) ->
  exists d,
    t' = t ++ d /\
    forallb (orchestrator_event v project) d = true /\
    (issued "new-session" d <= issued "list-sessions" d)%nat /\
    (issued "list-sessions" d <= S (issued "new-session" d))%nat /\
    (r = None -> issued "list-sessions" d = S (issued "new-session" d)) /\
    (joined d <= match v with MainGo => 0 | Part000 => 1 end)%nat /\
    (r = None -> joined d = match v with MainGo => 0 | Part000 => 1 end)%nat.
Proof.
  revert t t' r. induction fuel as [|fuel IH]; intros t t' r Hrun; [done|].
  destruct (listing_usable (run_command os t list_sessions)) eqn:Husable.
  - pose proof (issued_check_events v os t) as (Hc1 & Hc2 & _).
    pose proof (joined_check_events v os t) as Hcj.
    pose proof (orchestrator_event_check v os project t) as Hce.
    destruct (session_listed project (fst (run_command os t list_sessions))) eqn:Hlisted.
    + rewrite (startOrAttachToTmux_joins v os project fuel t Husable Hlisted) in Hrun.
      injection Hrun as <- <-.
      pose proof (issued_join_events v os project (t ++ check_events v os t))
        as (Hj1 & Hj2).
      pose proof (joined_join_events v os project (t ++ check_events v os t)) as Hjj.
      pose proof (orchestrator_event_join v os project (t ++ check_events v os t)) as Hje.
      exists (check_events v os t
              ++ fst (join_events v os project (t ++ check_events v os t))).
      split; [reflexivity|].
      rewrite forallb_app, !issued_app, joined_app, Hce, Hje.
      repeat split; try done; try lia. all: destruct v; lia.
    + rewrite (startOrAttachToTmux_creates v os project fuel t Husable Hlisted) in Hrun.
      pose proof (issued_new_session v project) as (Hn1 & Hn2).
      pose proof (issued_new_session_joined v project) as Hnj.
      pose proof (orchestrator_event_create v project) as Hne.
      cbv zeta in Hrun.
      destruct (snd (run_command os (t ++ check_events v os t)
                       (new_session_argv v project))) as [e|].
      * injection Hrun as <- <-.
        exists (check_events v os t ++ [Exec (new_session_argv v project)]).
        rewrite <- app_assoc. split; [reflexivity|].
        rewrite forallb_app, !issued_app, joined_app, Hce. cbn [forallb].
        rewrite Hne. repeat split; try done; try lia.
      * apply IH in Hrun
          as (d & -> & Hd & Hle1 & Hle2 & Hnil & Hjle & Hjnil).
        exists (check_events v os t ++ [Exec (new_session_argv v project)] ++ d).
        rewrite <- !app_assoc. split; [reflexivity|].
        rewrite !forallb_app, !issued_app, !joined_app, Hce, Hd. cbn [forallb].
        rewrite Hne. repeat split; try done; try lia.
        -- intros Hr. specialize (Hnil Hr). lia.
        -- intros Hr. specialize (Hjnil Hr). lia.
  - apply listing_not_usable in Husable as (e & He & Hno).
    destruct (run_command os t list_sessions) as [output err] eqn:Hlist.
    simpl in He, Hno. subst err.
    rewrite (startOrAttachToTmux_listing_fails v os project fuel t output e Hlist Hno)
      in Hrun.
    injection Hrun as <- <-.
    exists [Exec list_sessions; Print ("false" +:+ String regexp.newline "")].
    split; [reflexivity|].
    cbn [forallb]. rewrite orchestrator_event_list.
    repeat split; try done; try (vm_compute; lia).
Qed.

(** X11.  When [tmux list-sessions] fails and its output does not say
    that no server is running, [startOrAttachToTmux] returns the error
    wrapped in "failed to list sessions" at once: it starts no other
    command, and in main.go it does not reset the terminal. *)
Theorem listing_failure_is_returned v os project t fuel output e :
  run_command os t list_sessions = (output, Some e) ->
  strings.Contains output "no server running" = false ->
  exists d,
    startOrAttachToTmux (S fuel) v os project t =
      Some (t ++ d, Some ("failed to list sessions: " +:+ e)) /\
    List.filter (fun ev => match ev with Exec _ => true | _ => false end) d
      = [Exec list_sessions].
Proof.
  intros Hlist Hno.
  exists [Exec list_sessions; Print ("false" +:+ String regexp.newline "")].
  split; [|reflexivity].
  by apply (startOrAttachToTmux_listing_fails v os project fuel t output e).
Qed.

Lemma listing_failure_is_returned_witness :
  exists d,
    startOrAttachToTmux 1 MainGo unreachable_os proj [] =
      Some ([] ++ d, Some "failed to list sessions: exit status 1") /\
    List.filter (fun ev => match ev with Exec _ => true | _ => false end) d
      = [Exec list_sessions].
Proof.
  apply (listing_failure_is_returned MainGo unreachable_os proj [] 0
           "error connecting to /tmp/tmux-1000/default (Permission denied)"
           "exit status 1"); vm_compute; reflexivity.
Defined.

(** X12.  The name of the project is looked for in whatever the listing
    printed, the message of a failed listing included: when the listing
    fails with a text that says that no server is running and that has
    the name of the project in one of its lines, the orchestrator takes
    the session for there and creates none. *)
Theorem no_server_text_is_searched v os project t fuel output e :
  run_command os t list_sessions = (output, Some e) ->
  strings.Contains output "no server running" = true ->
  session_listed project output = true ->
  exists d r,
    startOrAttachToTmux (S fuel) v os project t = Some (t ++ d, r) /\
    issued "new-session" d = 0%nat /\
    joined d = match v with MainGo => 0%nat | Part000 => 1%nat end.
Proof.
  intros Hlist Hno Hlisted.
  assert (listing_usable (run_command os t list_sessions) = true) as Husable
    by (by rewrite Hlist).
  assert (session_listed project (fst (run_command os t list_sessions)) = true)
    as Hlisted' by (by rewrite Hlist).
  exists (check_events v os t
          ++ fst (join_events v os project (t ++ check_events v os t))),
         (snd (join_events v os project (t ++ check_events v os t))).
  split; [by apply startOrAttachToTmux_joins|].
  rewrite issued_app, joined_app, joined_check_events, joined_join_events.
  destruct (issued_check_events v os t) as (-> & _).
  destruct (issued_join_events v os project (t ++ check_events v os t)) as (-> & _).
  done.
Qed.

Lemma no_server_text_is_searched_witness :
  let project := mkProject "default" "/home/u/default" "default" in
  run_command home_os [] list_sessions =
    ("no server running on /tmp/tmux-1000/default", Some "exit status 1") /\
  exists d r,
    startOrAttachToTmux 1 Part000 home_os project [] = Some ([] ++ d, r) /\
    issued "new-session" d = 0%nat /\ joined d = 1%nat.
Proof.
  split; [vm_compute; reflexivity|].
  apply (no_server_text_is_searched Part000 home_os
           (mkProject "default" "/home/u/default" "default") [] 0
           "no server running on /tmp/tmux-1000/default" "exit status 1");
    vm_compute; reflexivity.
Defined.

(** X13.  Inside a [tmux] client ([TMUX] set) the variant that sorts
    joins a session found in the listing by [switch-client] on the name
    of the project; it starts neither [attach-session] nor
    [new-session], and returns what the command returns. *)
Theorem switch_inside_tmux os project t fuel :
  Getenv os "TMUX" <> "" ->
  listing_usable (run_command os t list_sessions) = true ->
  session_listed project (fst (run_command os t list_sessions)) = true ->
  let switch := ["tmux"; "switch-client"; "-t"; Name project] in
  let done := check_events Part000 os t ++ [Exec switch] in
  startOrAttachToTmux (S fuel) Part000 os project t =
    Some (t ++ done, snd (run_command os (t ++ check_events Part000 os t) switch)) /\
  issued "switch-client" done = 1%nat /\
  issued "attach-session" done = 0%nat /\ issued "new-session" done = 0%nat.
Proof.
  intros Htmux Husable Hlisted switch done.
  rewrite (startOrAttachToTmux_joins Part000 os project fuel t Husable Hlisted).
  unfold join_events. apply String.eqb_neq in Htmux. rewrite Htmux. by cbn.
Qed.

Lemma switch_inside_tmux_witness :
  startOrAttachToTmux 1 Part000 inside_os proj [] =
    Some ([Exec list_sessions; Print ("false" +:+ String regexp.newline "");
           Exec ["tmux"; "switch-client"; "-t"; "proj"]], None).
Proof.
  destruct (switch_inside_tmux inside_os proj [] 0) as [Hrun _];
    [vm_compute; congruence|vm_compute; reflexivity|vm_compute; reflexivity|].
  rewrite Hrun. vm_compute. reflexivity.
Defined.

(** X14.  Whenever [startOrAttachToTmux] returns, it has kept the trace
    it was given and added to it only what it prints and these
    commands: the listing of the sessions, [new-session] for this
    project, the [reset] of the terminal in main.go, and in the variant
    that sorts [attach-session] and [switch-client] on the name of this
    project. *)
Theorem startOrAttachToTmux_commands fuel v os project t t' r :
  startOrAttachToTmux fuel v os project t = Some (t', r) ->
  exists d, t' = t ++ d /\ forallb (orchestrator_event v project) d = true.
Proof.
  intros Hrun. apply startOrAttachToTmux_added in Hrun as (d & Ht & Hd & _).
  by exists d.
Qed.

Lemma startOrAttachToTmux_commands_witness :
  exists t' d,
    startOrAttachToTmux 2 MainGo home_os proj [Print "before"] = Some (t', None) /\
    t' = [Print "before"] ++ d /\
    forallb (orchestrator_event MainGo proj) d = true.
Proof.
  eexists.
  assert (startOrAttachToTmux 2 MainGo home_os proj [Print "before"] =
            Some ([Print "before"; Exec list_sessions;
                   Print ("true" +:+ String regexp.newline ""); Exec ["reset"];
                   Exec (new_session_argv MainGo proj); Exec list_sessions;
                   Print ("false" +:+ String regexp.newline ""); Exec ["reset"];
                   Print "tmux attach-session -t proj"], None)) as Hrun
    by (vm_compute; reflexivity).
  destruct (startOrAttachToTmux_commands _ _ _ _ _ _ _ Hrun) as (d & Ht & Hd).
  exists d. split; [exact Hrun|]. split; [exact Ht|exact Hd].
Defined.

(** X15.  In every return of [startOrAttachToTmux] each [new-session]
    follows a listing of its own: the listings are as many as the
    [new-session] commands or one more.  A return without error has one
    listing more, and in the variant that sorts exactly one
    [attach-session] or [switch-client]; main.go never starts either
    of the two. *)
Theorem startOrAttachToTmux_counts fuel v os project t d r :
  startOrAttachToTmux fuel v os project t = Some (t ++ d, r) ->
  (issued "new-session" d <= issued "list-sessions" d)%nat /\
  (issued "list-sessions" d <= S (issued "new-session" d))%nat /\
  (joined d <= match v with MainGo => 0 | Part000 => 1 end)%nat /\
  (r = None ->
     issued "list-sessions" d = S (issued "new-session" d) /\
     joined d = match v with MainGo => 0 | Part000 => 1 end%nat).
Proof.
  intros Hrun.
  apply startOrAttachToTmux_added in Hrun
    as (d' & Ht & _ & Hle1 & Hle2 & Hnil & Hjle & Hjnil).
  apply app_inv_head in Ht as ->.
  split; [exact Hle1|]. split; [exact Hle2|]. split; [exact Hjle|].
  intros Hr. split; [by apply Hnil|by apply Hjnil].
Qed.

Lemma startOrAttachToTmux_counts_witness :
  let project := mkProject "my.app" "/home/u/my.app" "my.app" in
  exists d,
    startOrAttachToTmux 5 Part000 home_os project [] = Some ([] ++ d, Some "exit status 1") /\
    issued "new-session" d = 2%nat /\ issued "list-sessions" d = 2%nat /\
    (issued "new-session" d <= issued "list-sessions" d)%nat /\
    (joined d <= 1)%nat.
Proof.
  eexists.
  assert (startOrAttachToTmux 5 Part000 home_os
            (mkProject "my.app" "/home/u/my.app" "my.app") [] =
          Some ([] ++ [Exec list_sessions; Print ("true" +:+ String regexp.newline "");
                 Exec (new_session_argv Part000
                         (mkProject "my.app" "/home/u/my.app" "my.app"));
                 Exec list_sessions; Print ("false" +:+ String regexp.newline "");
                 Exec (new_session_argv Part000
                         (mkProject "my.app" "/home/u/my.app" "my.app"))],
                Some "exit status 1")) as Hrun by (vm_compute; reflexivity).
  destruct (startOrAttachToTmux_counts _ _ _ _ _ _ _ Hrun) as (Hle & _ & Hj & _).
  split; [exact Hrun|]. split; [vm_compute; reflexivity|].
  split; [vm_compute; reflexivity|]. split; [exact Hle|exact Hj].
Defined.

(** ** The walks of [findProjectDirectories] and the run of [main] *)

Lemma findProjectDirectories_trace v os cfg t :
  fst (findProjectDirectories v os cfg t) = t ++ List.map walk_event (ProjectBase cfg).
Proof.
  unfold findProjectDirectories.
  pose proof (resolve_bases_trace v os (ProjectBase cfg) ∅ t) as Htrace.
  destruct (resolve_bases v os (ProjectBase cfg) ∅ t) as [ret t']. simpl in *.
  by rewrite Htrace.
Qed.


Lemma issued_quiet sub t :
  Forall (fun e => match e with Exec _ => False | _ => True end) t ->
  issued sub t = 0%nat.
Proof.
  unfold issued. induction 1 as [|e t He Ht IH]; [done|].
  simpl. destruct e; [done| |]; exact IH.
Qed.

Lemma walk_events_quiet bases :
  Forall (fun e => match e with Exec _ => False | _ => True end)
         (List.map walk_event bases).
Proof. induction bases; constructor; done. Qed.

Lemma findProjectDirectories_triple v os cfg :
  findProjectDirectories v os cfg [] =
    (List.map walk_event (ProjectBase cfg),
     (fst (snd (findProjectDirectories v os cfg [])), None)).
Proof.
  pose proof (findProjectDirectories_trace v os cfg []) as Ht.
  pose proof (findProjectDirectories_no_error v os cfg []) as He.
  destruct (findProjectDirectories v os cfg []) as [t [res err]].
  simpl in *. by subst.
Qed.



(** X18.  A run of [main] in the variant that sorts ends with status 0
    only after exactly one [attach-session] or [switch-client], and one
    listing of the sessions more than [new-session] commands; a run of
    main.go starts neither [attach-session] nor [switch-client],
    whatever its status. *)
Theorem main_joins_once fuel v os t code :
  main fuel v os = Some (t, code) ->
  (joined t <= match v with MainGo => 0 | Part000 => 1 end)%nat /\
  (code = 0%nat ->
     joined t = match v with MainGo => 0 | Part000 => 1 end%nat /\
     issued "list-sessions" t = S (issued "new-session" t)).
Proof.
  assert (forall s, joined [Print s] = 0%nat /\ issued "list-sessions" [Print s] = 0%nat
                    /\ issued "new-session" [Print s] = 0%nat) as Hprint by done.
  assert (forall s code', code' <> 0%nat ->
            Some ([Print s], code') = Some (t, code) ->
            (joined t <= match v with MainGo => 0 | Part000 => 1 end)%nat /\
            (code = 0%nat ->
               joined t = match v with MainGo => 0 | Part000 => 1 end%nat /\
               issued "list-sessions" t = S (issued "new-session" t))) as Hearly.
  { intros s code' Hcode [= <- <-]. split; [rewrite (proj1 (Hprint s)); lia|done]. }
  unfold main, println_error.
  destruct (normalizePath os (flag_config os)) as [cfgPath|e]; [|by apply Hearly].
  destruct (loadConfig os cfgPath) as [config|e]; [|by apply Hearly].
  rewrite mergeFlagsWithConfig_app. cbn [ProjectBase].
  destruct (length (ProjectBase config ++ flag_base os) =? 0)%nat; [by apply Hearly|].
  destruct (NormalizePaths os _) as [cfg'|e]; [|by apply Hearly].
  rewrite findProjectDirectories_triple.
  set (walks := List.map walk_event (ProjectBase cfg')).
  assert (forall sub, issued sub walks = 0%nat) as Hwalks
    by (intros sub; apply issued_quiet, walk_events_quiet).
  assert (joined walks = 0%nat) as Hjw by (unfold joined; by rewrite !Hwalks).
  unfold selectProjectDirectory.
  destruct (fuzzy_find os _) as [idx|e].
  - destruct (nth_error _ idx) as [project|].
    + destruct (startOrAttachToTmux fuel v os project _) as [[t3 r]|] eqn:Hrun; [|done].
      apply startOrAttachToTmux_added in Hrun
        as (d & -> & _ & _ & _ & Hnil & Hjle & Hjnil).
      destruct r as [e|]; intros [= <- <-].
      * split; [|done]. rewrite !joined_app, Hjw.
        destruct (Hprint ("Starting selected project: " +:+ Name project
                          +:+ String regexp.newline "")) as (-> & _).
        destruct (Hprint ("Error: " +:+ e +:+ String regexp.newline "")) as (-> & _).
        lia.
      * rewrite !joined_app, !issued_app, Hjw, !Hwalks.
        destruct (Hprint ("Starting selected project: " +:+ Name project
                          +:+ String regexp.newline "")) as (-> & -> & ->).
        split; [lia|]. intros _. rewrite Hjnil, Hnil by done. lia.
    + intros [= <- <-]. split; [rewrite Hjw; lia|done].
  - intros [= <- <-]. split; [|done]. rewrite joined_app, Hjw.
    destruct (Hprint ("Error: " +:+ e +:+ String regexp.newline "")) as (-> & _). lia.
Qed.

Lemma main_joins_once_witness :
  exists t, main 5 Part000 one_base_os = Some (t, 0%nat) /\
            joined t = 1%nat /\
            issued "list-sessions" t = S (issued "new-session" t).
Proof.
  eexists.
  assert (main 5 Part000 one_base_os =
            Some ([Walk "/home/u/code" "**/{.git}";
                   Print ("Starting selected project: project-a"
                          +:+ String regexp.newline "");
                   Exec list_sessions; Print ("true" +:+ String regexp.newline "");
                   Exec ["tmux"; "new-session"; "-d"; "-s"; "project-a";
                         "-c"; "/home/u/code/project-a"];
                   Exec list_sessions; Print ("false" +:+ String regexp.newline "");
                   Exec ["tmux"; "attach-session"; "-t"; "project-a"]],
                  0%nat)) as Hrun by (vm_compute; reflexivity).
  destruct (main_joins_once _ _ _ _ _ Hrun) as [_ Hok].
  split; [exact Hrun|]. by apply Hok.
Defined.

(** X19.  [selectProjectDirectory] returns the project at the index the
    fuzzy finder gives, which is one of the list, after printing its
    name; an index outside of the list, any index for the empty list,
    is a panic; and when the finder returns an error the function
    returns it and prints nothing. *)
Theorem selectProjectDirectory_outcomes os projects t :
  (forall idx, fuzzy_find os projects = Ok idx ->
     (length projects <= idx)%nat ->
     selectProjectDirectory os projects t = None) /\
  (forall idx, fuzzy_find os projects = Ok idx ->
     (idx < length projects)%nat ->
     exists p, nth_error projects idx = Some p /\ In p projects /\
       selectProjectDirectory os projects t =
         Some (t ++ [Print ("Starting selected project: " +:+ Name p
                            +:+ String regexp.newline "")], Ok p)) /\
  (forall e, fuzzy_find os projects = Err e ->
     selectProjectDirectory os projects t = Some (t, Err e)).
Proof.
  unfold selectProjectDirectory. split; [|split].
  - intros idx -> Hidx. apply nth_error_None in Hidx. by rewrite Hidx.
  - intros idx -> Hidx. apply nth_error_Some in Hidx.
    destruct (nth_error projects idx) as [p|] eqn:Hp; [|done].
    exists p. split; [done|]. split; [|done]. by apply nth_error_In in Hp.
  - by intros e ->.
Qed.

(** X20.  A walk ends at the first match for which the function given
    to it returns an error: the matches after it are not looked at, and
    the map is left as the matches before it have made it. *)
Theorem walk_stops_at_first_error v os bp base pattern before p after ret :
  doublestar.SplitPattern bp = (base, pattern) ->
  fst (glob_walk os base pattern) = before ++ p :: after ->
  Forall (fun p' => is_Err (match_project v base
                              (regexp.glob_meta_found (path.Base pattern))
                              (fst (UserHomeDir os)) p') = false) before ->
  is_Err (match_project v base (regexp.glob_meta_found (path.Base pattern))
            (fst (UserHomeDir os)) p) = true ->
  resolve_base v os bp ret =
    fold_left store
      (walk_projects v base (regexp.glob_meta_found (path.Base pattern))
         (fst (UserHomeDir os)) before) ret /\
  forall after',
    resolve_base v
      (mkOS (Getenv os) (Getwd os) (flag_base os) (flag_config os)
            (read_config os)
            (fun b pat => if String.eqb b base && String.eqb pat pattern
                          then (before ++ p :: after', None)
                          else glob_walk os b pat)
            (map_range os) (fuzzy_find os) (run_command os)) bp ret =
    resolve_base v os bp ret.
Proof.
  intros Hsplit Hwalk Hbefore Herr.
  assert (forall rest,
            walk_projects v base (regexp.glob_meta_found (path.Base pattern))
              (fst (UserHomeDir os)) (before ++ p :: rest) =
            walk_projects v base (regexp.glob_meta_found (path.Base pattern))
              (fst (UserHomeDir os)) before) as Hstop.
  { intros rest. rewrite walk_projects_app by done.
    rewrite walk_projects_cons.
    destruct (match_project v base _ _ p) as [[q|]|e]; [done..|].
    by rewrite app_nil_r. }
  assert (resolve_base v os bp ret =
            fold_left store
              (walk_projects v base (regexp.glob_meta_found (path.Base pattern))
                 (fst (UserHomeDir os)) before) ret) as Hthis.
  { rewrite resolve_base_fold. unfold base_projects.
    by rewrite Hsplit, Hwalk, Hstop. }
  split; [exact Hthis|].
  intros after'. rewrite Hthis, resolve_base_fold. unfold base_projects.
  rewrite Hsplit. cbn [glob_walk Getenv UserHomeDir].
  rewrite !String.eqb_refl. cbn [andb fst]. by rewrite Hstop.
Qed.

Lemma walk_stops_at_first_error_witness :
  fst (glob_walk no_home_os "/home/u/code" "**/{.git}")
    = [] ++ "project-a/.git" :: ["group/project-b/.git"] /\
  resolve_base Part000 no_home_os "/home/u/code/**/{.git}" ∅ = ∅.
Proof.
  split; [vm_compute; reflexivity|].
  destruct (walk_stops_at_first_error Part000 no_home_os "/home/u/code/**/{.git}"
              "/home/u/code" "**/{.git}" [] "project-a/.git"
              ["group/project-b/.git"] ∅) as [Hthis _];
    [vm_compute; reflexivity|vm_compute; reflexivity|constructor
    |vm_compute; reflexivity|].
  exact Hthis.
Defined.

(** X21.  With a normalized configuration every full path returned by
    [findProjectDirectories] is a cleaned absolute path: it starts with
    a slash, and it is [/] or its elements are neither empty nor [.]
    nor [..]. *)
Theorem normalized_full_paths_absolute v os cfg cfg' t q :
  range_is_permutation os ->
  (forall d, Getwd os = Ok d -> strings.HasPrefix d "/" = true) ->
  NormalizePaths os cfg = Ok cfg' ->
  In q (fst (snd (findProjectDirectories v os cfg' t))) ->
  strings.HasPrefix (FullPath q) "/" = true /\
  exists es, strings.Split (FullPath q) path.slash = "" :: es /\
             (es = [""] \/ Forall proper_element es).
Proof.
  intros Hrange Hwd Hnorm Hin. apply result_discovered in Hin; [|done].
  apply discovered_in in Hin as (bp & p & Hbp & _ & Hq).
  apply match_project_consistent in Hq as [-> _].
  unfold NormalizePaths in Hnorm.
  destruct (normalize_all os (ProjectBase cfg)) as [ps|e] eqn:Hall; [|done].
  injection Hnorm as <-. simpl in Hbp.
  destruct (normalize_all_in os _ _ bp Hall Hbp) as (b & _ & Hb).
  destruct (normalizePath_cleaned os b bp Hwd Hb) as (y & Hy & ->).
  pose proof (SplitPattern_rooted _ (proj1 (Clean_rooted_fields y Hy))) as Hbase.
  destruct (Join_rooted _ (Name q) Hbase) as [-> Hroot].
  split; [by apply Clean_rooted_fields|by apply Clean_rooted_shape].
Qed.

Lemma normalized_full_paths_absolute_witness :
  let q := mkProject "u" "/home/u/u" "u" in
  strings.HasPrefix (FullPath q) "/" = true /\
  exists es, strings.Split (FullPath q) path.slash = "" :: es /\
             (es = [""] \/ Forall proper_element es).
Proof.
  apply (normalized_full_paths_absolute Part000 home_os sample_config
           sample_config []).
  - apply sample_range_is_permutation.
  - intros d Hd. vm_compute in Hd. injection Hd as <-. vm_compute. reflexivity.
  - vm_compute. reflexivity.
  - vm_compute. tauto.
Defined.
